(** * node-escpos, packages/printer: the ESC/POS command builder

    A shallow embedding of [utils.js] (check digit, length prefix, byte width,
    two-column padding) and of the [Printer] builder of [index.js], followed by
    the properties the specification states about them.

    Conventions.
    - A JavaScript string is the list of its UTF-16 code units ([charAt],
      [length], [substring] and [split('')] all work on code units).
    - A JavaScript number that the code only adds, subtracts and compares is an
      integer ([Z]); [NaN] is [None] where the code can produce it.  The table
      layout, which divides and scales by a fraction, uses binary64 floats.
    - A [Buffer] is a list of bytes.
    - [throw] is the result [Throw e p], carrying the builder as it stands at
      the moment of the throw. *)

From Stdlib Require Import String Ascii.
From Stdlib.Strings Require Import Byte.
From Stdlib Require Import ZArith NArith List Bool Lia Floats.
From Stdlib Require Import DecimalString HexadecimalString.
Import ListNotations.
Local Open Scope string_scope.
Local Open Scope list_scope.
Local Open Scope Z_scope.

(** ** JavaScript strings and the built-ins the code calls *)

Module JS.

Definition char := N.
Definition jsstring := list char.

(** A string literal of the source. *)
Definition js (s : string) : jsstring := map N_of_ascii (list_ascii_of_string s).

(** [a === b] on strings. *)
Fixpoint streq (a b : jsstring) : bool :=
  match a, b with
  | [], [] => true
  | x :: a', y :: b' => N.eqb x y && streq a' b'
  | _, _ => false
  end.

(** [s.length] as a number. *)
Definition len (s : jsstring) : Z := Z.of_nat (length s).

(** [buf.length] as a number. *)
Definition len_bytes (b : list byte) : Z := Z.of_nat (length b).

(** [for (i = 0; i < n; i++) body], for a body that does not read [i]. *)
Definition for_lt {A : Type} (n : Z) (body : A -> A) (init : A) : A :=
  Nat.iter (Z.to_nat n) body init.

(** [String(n)] and [n.toString()] for an integer. *)
Definition decimal (n : Z) : jsstring :=
  js (DecimalString.NilZero.string_of_int (Z.to_int n)).

(** [n.toString(16)] for a non-negative integer. *)
Definition toString16 (n : N) : jsstring :=
  js (HexadecimalString.NilZero.string_of_uint (N.to_hex_uint n)).

(** The byte of value [n] (the low eight bits). *)
Definition u8 (n : N) : byte :=
  match Byte.of_N (n mod 256) with Some b => b | None => x00 end.

Definition is_high_surrogate (c : char) : bool := ((0xD800 <=? c) && (c <=? 0xDBFF))%N.
Definition is_low_surrogate (c : char) : bool := ((0xDC00 <=? c) && (c <=? 0xDFFF))%N.

Definition utf8_code_point (cp : N) : list byte :=
  (if cp <? 0x80 then [u8 cp]
   else if cp <? 0x800 then [u8 (0xC0 + cp / 64); u8 (0x80 + cp mod 64)]
   else if cp <? 0x10000 then
     [u8 (0xE0 + cp / 4096); u8 (0x80 + (cp / 64) mod 64); u8 (0x80 + cp mod 64)]
   else
     [u8 (0xF0 + cp / 262144); u8 (0x80 + (cp / 4096) mod 64);
      u8 (0x80 + (cp / 64) mod 64); u8 (0x80 + cp mod 64)])%N.

(** U+FFFD, which stands for a surrogate that has no partner. *)
Definition replacement : list byte := [xef; xbf; xbd].

(** The bytes of a string in UTF-8: what [Buffer.from(s)], [Buffer.byteLength(s)]
    and [buf.write(s)] use when no encoding is named. *)
Fixpoint utf8_encode (s : jsstring) : list byte :=
  match s with
  | [] => []
  | c :: rest =>
      if is_high_surrogate c then
        match rest with
        | d :: rest' =>
            if is_low_surrogate d
            then utf8_code_point (0x10000 + (c - 0xD800) * 1024 + (d - 0xDC00))%N
                   ++ utf8_encode rest'
            else replacement ++ utf8_encode rest
        | [] => replacement
        end
      else if is_low_surrogate c then replacement ++ utf8_encode rest
      else utf8_code_point c ++ utf8_encode rest
  end.

(** The decoder's state inside a multi-byte sequence. *)
Record pending := {
  cp : N;          (* the code point read so far *)
  needed : nat;    (* continuation bytes still to come *)
  lower : N;       (* the range the next byte must lie in *)
  upper : N }.

Definition code_units (c : N) : jsstring :=
  (if c <? 0x10000 then [c]
   else [0xD800 + (c - 0x10000) / 1024; 0xDC00 + (c - 0x10000) mod 1024])%N.

(** A byte read outside a sequence: a character, the start of a sequence, or
    U+FFFD. *)
Definition lead (b : N) : jsstring * option pending :=
  (if b <? 0x80 then ([b], None)
   else if (0xC2 <=? b) && (b <=? 0xDF) then
     ([], Some {| cp := b mod 32; needed := 1; lower := 0x80; upper := 0xBF |})
   else if (0xE0 <=? b) && (b <=? 0xEF) then
     ([], Some {| cp := b mod 16; needed := 2;
                  lower := if b =? 0xE0 then 0xA0 else 0x80;
                  upper := if b =? 0xED then 0x9F else 0xBF |})
   else if (0xF0 <=? b) && (b <=? 0xF4) then
     ([], Some {| cp := b mod 8; needed := 3;
                  lower := if b =? 0xF0 then 0x90 else 0x80;
                  upper := if b =? 0xF4 then 0x8F else 0xBF |})
   else ([0xFFFD], None))%N.

Fixpoint utf8_decode_from (st : option pending) (bs : list N) : jsstring :=
  match bs with
  | [] => match st with Some _ => [0xFFFD%N] | None => [] end
  | b :: rest =>
      match st with
      | None => let (out, st') := lead b in out ++ utf8_decode_from st' rest
      | Some d =>
          if ((lower d <=? b) && (b <=? upper d))%N then
            let c := (cp d * 64 + b mod 64)%N in
            match needed d with
            | 0%nat | 1%nat => code_units c ++ utf8_decode_from None rest
            | S n =>
                utf8_decode_from
                  (Some {| cp := c; needed := n; lower := 0x80; upper := 0xBF |}) rest
            end
          else
            let (out, st') := lead b in
            (0xFFFD%N :: out) ++ utf8_decode_from st' rest
      end
  end.

(** [buf.toString()]: the bytes read as UTF-8, an ill-formed sequence giving
    U+FFFD. *)
Definition Buffer_toString (buf : list byte) : jsstring :=
  utf8_decode_from None (map Byte.to_N buf).

Definition hex_digit (c : char) : option N :=
  (if (48 <=? c) && (c <=? 57) then Some (c - 48)
   else if (97 <=? c) && (c <=? 102) then Some (c - 87)
   else if (65 <=? c) && (c <=? 70) then Some (c - 55)
   else None)%N.

(** [Buffer.from(s, 'hex')]: one byte per pair of hexadecimal digits, ending
    at the first pair that is not one and dropping a last single digit. *)
Fixpoint Buffer_from_hex (s : jsstring) : list byte :=
  match s with
  | h :: l :: rest =>
      match hex_digit h, hex_digit l with
      | Some a, Some b => u8 (16 * a + b) :: Buffer_from_hex rest
      | _, _ => []
      end
  | _ => []
  end.

(** [s.substring(from, to)] for indices already clamped to [0, s.length]. *)
Definition substring (s : jsstring) (from to : nat) : jsstring :=
  firstn (Nat.max from to - Nat.min from to) (skipn (Nat.min from to) s).

End JS.
Import JS.

(** ** utils.js *)

Module Utils.

(** [parseInt(c, 10)] for a one-character string [c]; [None] is [NaN]. *)
Definition parseInt10 (c : char) : option Z :=
  if ((48 <=? c) && (c <=? 57))%N then Some (Z.of_N c - 48) else None.

(** The loop of [getParityBit]: [parity] after the characters of
    [reversedCode] from index [counter] on. *)
Fixpoint parity_loop (reversedCode : jsstring) (counter : Z) (parity : option Z)
  : option Z :=
  match reversedCode with
  | [] => parity
  | c :: rest =>
      parity_loop rest (counter + 1)
        match parity, parseInt10 c with
        | Some p, Some d => Some (p + d * 3 ^ (Z.rem (counter + 1) 2))
        | _, _ => None
        end
  end.

Definition getParityBit (str : jsstring) : jsstring :=
  let reversedCode := rev str in
  match parity_loop reversedCode 0 (Some 0) with
  | Some parity => decimal (Z.rem (10 - Z.rem parity 10) 10)
  | None => js "NaN"
  end.

Definition codeLength (str : jsstring) : jsstring :=
  let buff := Buffer_from_hex (toString16 (N.of_nat (length str))) in
  Buffer_toString buff.

(** The test of [bytesLength]'s regular expression, the class from U+0000 to
    U+00FF anchored at both ends, on the one code unit [charAt] returns. *)
Definition single_byte (c : char) : bool := (c <=? 0xFF)%N.

Fixpoint bytesLength_from (str : jsstring) (bytesCount : Z) : Z :=
  match str with
  | [] => bytesCount
  | c :: rest =>
      bytesLength_from rest (if single_byte c then bytesCount + 1 else bytesCount + 2)
  end.

Definition bytesLength (str : jsstring) : Z := bytesLength_from str 0.

Definition spaceText (text1 text2 : jsstring) (width : Z) : jsstring :=
  let l_bytes := bytesLength text1 in
  let r_bytes := bytesLength text2 in
  let space := width - l_bytes - r_bytes in
  let str := for_lt space (fun str => str ++ js " ") text1 in
  str ++ text2.

End Utils.
Import Utils.

(** ** index.js: the Printer *)

(** A value passed where the code accepts a number or a string and tests which
    it got ([typeof], truthiness), or read from the command table; numbers are
    integers. *)
Inductive jsval :=
| undefined
| JNum (n : Z)
| JStr (s : jsstring).

(** The collaborators the builder calls and that are no part of these sources. *)
Class Env := {
  (** [commands.js], the table [_]: the value at a path of property names,
      [undefined] where there is none. *)
  commands : list jsstring -> jsval;
  (** Its two function-valued entries. *)
  TXT_CUSTOM_SIZE : Z -> Z -> jsval;
  BARCODE_HEIGHT : jsval -> jsval;
  (** [iconv.encode(text, encoding)] of iconv-lite; [None] when it throws
      (the encoding is not recognised). *)
  iconv_encode : jsstring -> jsstring -> option (list byte);
  (** [String.prototype.toUpperCase] and [toLowerCase]. *)
  toUpperCase : jsstring -> jsstring;
  toLowerCase : jsstring -> jsstring;
  (** [Number(s)] for a string; [None] is [NaN]. *)
  StringToNumber : jsstring -> option Z;
  (** [image.js]: a decoded image, its raster ([data], [width], [height]) and
      its bitmap lines for a given band height. *)
  Image : Type;
  toRaster : Image -> list byte * Z * Z;
  toBitmap : Image -> Z -> list (list byte)
}.

Inductive exn :=
| Error (message : string)
| TypeError (message : string)
| RangeError (message : string).

(** The constructor's [options]. *)
Record Options := {
  opt_encoding : option jsstring;
  opt_width : option Z }.

Record Printer := {
  (** What [adapter.write] has received, oldest first. *)
  adapter : list (list byte);
  options : option Options;
  (** The contents of the MutableBuffer. *)
  buffer : list byte;
  encoding : jsstring;
  width : Z;
  _model : option jsstring }.

Inductive result :=
| Ok (p : Printer)
| Throw (e : exn) (p : Printer).

(** The builder after a call, whether it returned or threw. *)
Definition state_of (r : result) : Printer :=
  match r with Ok p => p | Throw _ p => p end.

Definition bind (r : result) (f : Printer -> result) : result :=
  match r with Ok p => f p | Throw e p => Throw e p end.

Notation "r >>= f" := (bind r f) (at level 50, left associativity).

Definition truthy (v : jsval) : bool :=
  match v with
  | undefined => false
  | JNum n => negb (n =? 0)
  | JStr s => negb (streq s [])
  end.

(** [a || b]. *)
Definition or_else (a b : jsval) : jsval := if truthy a then a else b.

(** [a || b] for an optional string [a]. *)
Definition str_or (a : option jsstring) (b : jsstring) : jsstring :=
  match a with Some (c :: s) => c :: s | _ => b end.

(** [a || b] for an optional number [a]. *)
Definition num_or (a : option Z) (b : Z) : Z :=
  match a with Some n => if n =? 0 then b else n | None => b end.

(** [s.replace(a, b)] for one-character strings [a] and [b]: the first
    occurrence only. *)
Fixpoint replace_first (a b : char) (s : jsstring) : jsstring :=
  match s with
  | [] => []
  | c :: rest => if N.eqb c a then b :: rest else c :: replace_first a b rest
  end.

Section Builder.

Context {env : Env}.

(** [_.A.B.C] *)
Definition cmd (path : list string) : jsval := commands (map js path).

(** [_.A.B[key]] *)
Definition cmd_at (path : list string) (key : jsstring) : jsval :=
  commands (map js path ++ [key]).

(** [Number(v)]; [None] is [NaN]. *)
Definition ToNumber (v : jsval) : option Z :=
  match v with
  | undefined => None
  | JNum n => Some n
  | JStr s => StringToNumber s
  end.

(** A comparison of two numbers, false when either is [NaN]. *)
Definition cmp (f : Z -> Z -> bool) (a b : option Z) : bool :=
  match a, b with Some x, Some y => f x y | _, _ => false end.

(** [v + ''], also the property name [v] stands for in [table[v]]. *)
Definition ToString (v : jsval) : jsstring :=
  match v with
  | undefined => js "undefined"
  | JNum n => decimal n
  | JStr s => s
  end.

(** *** The MutableBuffer *)

(** [buffer.write(bytes)] for a Buffer or an array of bytes. *)
Definition emit (bytes : list byte) (p : Printer) : Printer :=
  {| adapter := adapter p; options := options p;
     buffer := buffer p ++ bytes;
     encoding := encoding p; width := width p; _model := _model p |}.

(** [buffer.write(bytes)] as a step of an operation. *)
Definition write_bytes (bytes : list byte) (p : Printer) : result :=
  Ok (emit bytes p).

(** [buffer.write(s)] for a string. *)
Definition write (s : jsstring) (p : Printer) : result :=
  write_bytes (utf8_encode s) p.

(** [buffer.write(v)] for anything else: [v + ''] is written. *)
Definition write_val (v : jsval) (p : Printer) : result :=
  write (ToString v) p.

Definition out_of_range : exn := RangeError "The value is out of range".

(** [buffer.writeUInt8(v)]: [NaN] is stored as 0. *)
Definition writeUInt8 (v : jsval) (p : Printer) : result :=
  match ToNumber v with
  | None => Ok (emit [x00] p)
  | Some n =>
      if (n <? 0) || (255 <? n) then Throw out_of_range p
      else Ok (emit [u8 (Z.to_N n)] p)
  end.

(** [buffer.writeUInt16LE(n)]: [NaN] is stored as 0. *)
Definition writeUInt16LE (v : option Z) (p : Printer) : result :=
  match v with
  | None => Ok (emit [x00; x00] p)
  | Some n =>
      if (n <? 0) || (65535 <? n) then Throw out_of_range p
      else Ok (emit [u8 (Z.to_N n); u8 (Z.to_N n / 256)] p)
  end.

(** [buffer.writeUInt16LE(a / n)] for [0 <= a] and [0 < n]: the range is
    tested on the quotient, its integer part is stored. *)
Definition writeUInt16LE_div (a n : Z) (p : Printer) : result :=
  if 65535 * n <? a then Throw out_of_range p
  else Ok (emit [u8 (Z.to_N (a / n)); u8 (Z.to_N (a / n) / 256)] p).

(** [buffer.flush()]: the contents, and the buffer emptied. *)
Definition buffer_flush (p : Printer) : list byte * Printer :=
  (buffer p,
   {| adapter := adapter p; options := options p; buffer := [];
      encoding := encoding p; width := width p; _model := _model p |}).

(** [adapter.write(buf, callback)] *)
Definition adapter_write (buf : list byte) (p : Printer) : Printer :=
  {| adapter := adapter p ++ [buf]; options := options p; buffer := buffer p;
     encoding := encoding p; width := width p; _model := _model p |}.

(** *** The constructor and the setters *)

Definition new_Printer (options : option Options) : Printer :=
  {| adapter := [];
     options := options;
     buffer := [];
     encoding := str_or (match options with Some o => opt_encoding o | None => None end)
                   (js "GB18030");
     width := num_or (match options with Some o => opt_width o | None => None end) 48;
     _model := None |}.

Definition model (_model : option jsstring) (p : Printer) : result :=
  Ok {| adapter := adapter p; options := options p; buffer := buffer p;
        encoding := encoding p; width := width p; _model := _model |}.

Definition encode (encoding : jsstring) (p : Printer) : result :=
  Ok {| adapter := adapter p; options := options p; buffer := buffer p;
        encoding := encoding; width := width p; _model := _model p |}.

Definition set_width (w : Z) (p : Printer) : Printer :=
  {| adapter := adapter p; options := options p; buffer := buffer p;
     encoding := encoding p; width := w; _model := _model p |}.

Definition is_qsprinter (p : Printer) : bool :=
  match _model p with Some m => streq m (js "qsprinter") | None => false end.

(** *** Text *)

Definition setCharacterCodeTable (codeTable : jsval) (p : Printer) : result :=
  write_val (cmd ["ESC"]) p >>= write_val (cmd ["TAB"]) >>= writeUInt8 codeTable.

Definition marginBottom (size : jsval) (p : Printer) : result :=
  write_val (cmd ["MARGINS"; "BOTTOM"]) p >>= writeUInt8 size.

Definition marginLeft (size : jsval) (p : Printer) : result :=
  write_val (cmd ["MARGINS"; "LEFT"]) p >>= writeUInt8 size.

Definition marginRight (size : jsval) (p : Printer) : result :=
  write_val (cmd ["MARGINS"; "RIGHT"]) p >>= writeUInt8 size.

(** What [print] is given: a string, or the Buffer [iconv.encode] returns. *)
Inductive content :=
| Text (s : jsstring)
| Bytes (b : list byte).

Definition print (c : content) (p : Printer) : result :=
  match c with
  | Text s => write s p
  | Bytes b => write_bytes b p
  end.

(** [_.EOL] as the right operand of a string concatenation. *)
Definition EOL : jsstring := ToString (cmd ["EOL"]).

Definition println (s : jsstring) (p : Printer) : result :=
  print (Text (s ++ EOL)) p.

Definition newLine (p : Printer) : result :=
  write_val (cmd ["EOL"]) p.

Definition not_recognized : exn := Error "Encoding not recognized".

(** [this.print(iconv.encode(s, encoding || this.encoding))] *)
Definition print_encoded (s : jsstring) (enc : option jsstring) (p : Printer) : result :=
  match iconv_encode s (str_or enc (encoding p)) with
  | Some b => print (Bytes b) p
  | None => Throw not_recognized p
  end.

Definition text (s : jsstring) (enc : option jsstring) (p : Printer) : result :=
  print_encoded (s ++ EOL) enc p.

Definition pureText (s : jsstring) (enc : option jsstring) (p : Printer) : result :=
  print_encoded s enc p.

Definition drawLine (p : Printer) : result :=
  for_lt (width p) (fun r => r >>= write_bytes (utf8_encode (js "-"))) (Ok p)
  >>= newLine.

(** [new Array(n).fill(v).join('')]: [join] writes nothing for [undefined]. *)
Definition fill_join (n : nat) (v : jsval) : jsstring :=
  concat (repeat (match v with undefined => [] | _ => ToString v end) n).

Definition feed (n : option Z) (p : Printer) : result :=
  let n := num_or n 1 in
  if (n <? 0) || (4294967295 <? n) then Throw (RangeError "Invalid array length") p
  else write (fill_join (Z.to_nat n) (cmd ["EOL"])) p.

Definition control (ctrl : jsstring) (p : Printer) : result :=
  write_val (cmd_at ["FEED_CONTROL_SEQUENCES"] (js "CTL_" ++ toUpperCase ctrl)) p.

Definition align (a : jsstring) (p : Printer) : result :=
  write_val (cmd_at ["TEXT_FORMAT"] (js "TXT_ALIGN_" ++ toUpperCase a)) p.

(** [this.options && this.options.width || n] *)
Definition options_width_or (n : Z) (p : Printer) : Z :=
  num_or (match options p with Some o => opt_width o | None => None end) n.

Definition font (family : jsstring) (p : Printer) : result :=
  write_val (cmd_at ["TEXT_FORMAT"] (js "TXT_FONT_" ++ toUpperCase family)) p >>= fun p =>
  if streq (toUpperCase family) (js "A")
  then Ok (set_width (options_width_or 42 p) p)
  else Ok (set_width (options_width_or 56 p) p).

(** The three writes of one case of [style]. *)
Definition style3 (bold italic underl : string) (p : Printer) : result :=
  write_val (cmd ["TEXT_FORMAT"; bold]) p
  >>= write_val (cmd ["TEXT_FORMAT"; italic])
  >>= write_val (cmd ["TEXT_FORMAT"; underl]).

Definition style (type : jsstring) (p : Printer) : result :=
  let t := toUpperCase type in
  if streq t (js "B") then style3 "TXT_BOLD_ON" "TXT_ITALIC_OFF" "TXT_UNDERL_OFF" p
  else if streq t (js "I") then style3 "TXT_BOLD_OFF" "TXT_ITALIC_ON" "TXT_UNDERL_OFF" p
  else if streq t (js "U") then style3 "TXT_BOLD_OFF" "TXT_ITALIC_OFF" "TXT_UNDERL_ON" p
  else if streq t (js "U2") then style3 "TXT_BOLD_OFF" "TXT_ITALIC_OFF" "TXT_UNDERL2_ON" p
  else if streq t (js "BI") then style3 "TXT_BOLD_ON" "TXT_ITALIC_ON" "TXT_UNDERL_OFF" p
  else if streq t (js "BIU") then style3 "TXT_BOLD_ON" "TXT_ITALIC_ON" "TXT_UNDERL_ON" p
  else if streq t (js "BIU2") then style3 "TXT_BOLD_ON" "TXT_ITALIC_ON" "TXT_UNDERL2_ON" p
  else if streq t (js "BU") then style3 "TXT_BOLD_ON" "TXT_ITALIC_OFF" "TXT_UNDERL_ON" p
  else if streq t (js "BU2") then style3 "TXT_BOLD_ON" "TXT_ITALIC_OFF" "TXT_UNDERL2_ON" p
  else if streq t (js "IU") then style3 "TXT_BOLD_OFF" "TXT_ITALIC_ON" "TXT_UNDERL_ON" p
  else if streq t (js "IU2") then style3 "TXT_BOLD_OFF" "TXT_ITALIC_ON" "TXT_UNDERL2_ON" p
  else style3 "TXT_BOLD_OFF" "TXT_ITALIC_OFF" "TXT_UNDERL_OFF" p.

Definition size (w h : Z) (p : Printer) : result :=
  if (w <=? 2) && (h <=? 2) then
    write_val (cmd ["TEXT_FORMAT"; "TXT_NORMAL"]) p >>= fun p =>
    if (w =? 2) && (h =? 2) then write_val (cmd ["TEXT_FORMAT"; "TXT_4SQUARE"]) p
    else if (w =? 1) && (h =? 2) then write_val (cmd ["TEXT_FORMAT"; "TXT_2HEIGHT"]) p
    else if (w =? 2) && (h =? 1) then write_val (cmd ["TEXT_FORMAT"; "TXT_2WIDTH"]) p
    else Ok p
  else write_val (TXT_CUSTOM_SIZE w h) p.

(** [n] is [None] for [undefined] and [null]. *)
Definition spacing (n : option jsval) (p : Printer) : result :=
  match n with
  | None => write_val (cmd ["CHARACTER_SPACING"; "CS_DEFAULT"]) p
  | Some n => write_val (cmd ["CHARACTER_SPACING"; "CS_SET"]) p >>= writeUInt8 n
  end.

Definition lineSpace (n : option jsval) (p : Printer) : result :=
  match n with
  | None => write_val (cmd ["LINE_SPACING"; "LS_DEFAULT"]) p
  | Some n => write_val (cmd ["LINE_SPACING"; "LS_SET"]) p >>= writeUInt8 n
  end.

Definition hardware (hw : jsstring) (p : Printer) : result :=
  write_val (cmd_at ["HARDWARE"] (js "HW_" ++ toUpperCase hw)) p.

(** *** Barcodes *)

(** The options object of [barcode]. *)
Record BarcodeOptions := {
  bo_width : jsval;
  bo_height : jsval;
  bo_position : option jsstring;
  bo_font : option jsstring;
  bo_includeParity : option bool }.

(** The third argument of [barcode]: [undefined], a number, a string, or an
    options object. *)
Inductive barcode_arg :=
| Value (v : jsval)
| OptionsObject (o : BarcodeOptions).

Definition EAN13_length : exn := Error "EAN13 Barcode type requires code length 12".
Definition EAN8_length : exn := Error "EAN8 Barcode type requires code length 7".

(** [1 <= v && v <= hi] *)
Definition between_1_and (hi : Z) (v : jsval) : bool :=
  cmp Z.leb (Some 1) (ToNumber v) && cmp Z.leb (ToNumber v) (Some hi).

(** The writes of [barcode] that come before the code: barcode mode, width,
    height, font, text position and the type. *)
Definition barcode_setup (type : jsstring) (width height : jsval)
    (position font : option jsstring) (p : Printer) : result :=
  (if is_qsprinter p
   then write_val (cmd ["MODEL"; "QSPRINTER"; "BARCODE_MODE"; "ON"]) p
   else Ok p)
  >>= (fun p =>
    if is_qsprinter p then Ok p
    else if between_1_and 5 width
    then write_val (cmd_at ["BARCODE_FORMAT"; "BARCODE_WIDTH"] (ToString width)) p
    else write_val (cmd ["BARCODE_FORMAT"; "BARCODE_WIDTH_DEFAULT"]) p)
  >>= (fun p =>
    if between_1_and 255 height then write_val (BARCODE_HEIGHT height) p
    else if is_qsprinter p
    then write_val (cmd ["MODEL"; "QSPRINTER"; "BARCODE_HEIGHT_DEFAULT"]) p
    else write_val (cmd ["BARCODE_FORMAT"; "BARCODE_HEIGHT_DEFAULT"]) p)
  >>= (fun p =>
    if is_qsprinter p then Ok p
    else write_val (cmd_at ["BARCODE_FORMAT"]
                      (js "BARCODE_FONT_" ++ toUpperCase (str_or font (js "A")))) p)
  >>= write_val (cmd_at ["BARCODE_FORMAT"]
                   (js "BARCODE_TXT_" ++ toUpperCase (str_or position (js "BLW"))))
  >>= write_val (cmd_at ["BARCODE_FORMAT"]
                   (js "BARCODE_" ++ toUpperCase (replace_first 45%N 95%N type))).

(** The string [barcode] writes for the code:
    [codeLength + code + (includeParity ? parityBit : '') + '\x00']. *)
Definition barcode_frame (code type : jsstring) (includeParity : bool) : jsstring :=
  let parityBit :=
    if includeParity && (streq type (js "EAN13") || streq type (js "EAN8"))
    then getParityBit code else [] in
  let codeLength :=
    if streq type (js "CODE128") || streq type (js "CODE93")
    then codeLength code else [] in
  codeLength ++ code ++ (if includeParity then parityBit else []) ++ [0%N].

(** The last write of [barcode]. *)
Definition barcode_mode_off (p : Printer) : result :=
  if is_qsprinter p
  then write_val (cmd ["MODEL"; "QSPRINTER"; "BARCODE_MODE"; "OFF"]) p
  else Ok p.

(** The body of [barcode], after [width], [height], [position], [font] and
    [includeParity] were read from the arguments.  After
    [type = type || 'EAN13'] the test that throws 'barcode type is required'
    cannot succeed. *)
Definition barcode_body (code : jsstring) (type : option jsstring)
    (width height : jsval) (position font : option jsstring) (includeParity : bool)
    (p : Printer) : result :=
  let type := str_or type (js "EAN13") in
  if streq type (js "EAN13") && negb (len code =? 12) then Throw EAN13_length p
  else if streq type (js "EAN8") && negb (len code =? 7) then Throw EAN8_length p
  else
    barcode_setup type width height position font p
    >>= write (barcode_frame code type includeParity)
    >>= barcode_mode_off.

(** [barcode(code, type, arguments[2], ..., arguments[5])]: a string or a
    number as third argument selects the positional convention, which leaves
    [includeParity] undefined. *)
Definition barcode (code : jsstring) (type : option jsstring)
    (arg2 : barcode_arg) (arg3 : jsval) (arg4 arg5 : option jsstring)
    (p : Printer) : result :=
  match arg2 with
  | Value (JNum n) => barcode_body code type (JNum n) arg3 arg4 arg5 false p
  | Value (JStr s) => barcode_body code type (JStr s) arg3 arg4 arg5 false p
  | Value undefined => barcode_body code type undefined undefined None None true p
  | OptionsObject o =>
      barcode_body code type (bo_width o) (bo_height o) (bo_position o) (bo_font o)
        (match bo_includeParity o with Some false => false | _ => true end) p
  end.

(** *** QR codes *)

Definition not_a_function : exn := TypeError "toUpperCase is not a function".
Definition code_length : exn :=
  Error "Invalid code length in byte. Must be between 1 and 2710".

(** The QSPrinter rule for [size] and [version]: the default for anything
    that is not a non-zero number, else the value brought into [MIN, MAX]. *)
Definition qs_bounded (v : jsval) (field : string) : jsval :=
  let at_ (k : string) := cmd ["MODEL"; "QSPRINTER"; "CODE2D_FORMAT"; field; k] in
  match v with
  | JNum n =>
      if n =? 0 then at_ "DEFAULT"
      else if cmp Z.ltb (Some n) (ToNumber (at_ "MIN")) then at_ "MIN"
      else if cmp Z.gtb (Some n) (ToNumber (at_ "MAX")) then at_ "MAX"
      else JNum n
  | _ => at_ "DEFAULT"
  end.

(** [dataRaw.length + LEN_OFFSET], the offset being a number of the table. *)
Definition plus_len_offset (n : Z) : option Z :=
  match ToNumber (cmd ["MODEL"; "QSPRINTER"; "CODE2D_FORMAT"; "LEN_OFFSET"]) with
  | Some k => Some (n + k)
  | None => None
  end.

Definition qrcode (code : jsstring) (version level size : jsval) (p : Printer) : result :=
  if negb (is_qsprinter p) then
    write_val (cmd ["CODE2D_FORMAT"; "TYPE_QR"]) p
    >>= write_val (cmd ["CODE2D_FORMAT"; "CODE2D"])
    >>= writeUInt8 (or_else version (JNum 3))
    >>= (fun p =>
      match or_else level (JStr (js "L")) with
      | JStr l => write_val (cmd_at ["CODE2D_FORMAT"] (js "QR_LEVEL_" ++ toUpperCase l)) p
      | _ => Throw not_a_function p
      end)
    >>= writeUInt8 (or_else size (JNum 6))
    >>= writeUInt16LE (Some (len code))
    >>= write code
  else
    match iconv_encode code (js "utf8") with
    | None => Throw not_recognized p
    | Some dataRaw =>
        let n := len_bytes dataRaw in
        if (n <? 1) && (n >? 2710) then Throw code_length p
        else
          let q (k : list string) := cmd (["MODEL"; "QSPRINTER"; "CODE2D_FORMAT"] ++ k) in
          write_val (q ["PIXEL_SIZE"; "CMD"]) p
          >>= writeUInt8 (qs_bounded size "PIXEL_SIZE")
          >>= write_val (q ["VERSION"; "CMD"])
          >>= writeUInt8 (qs_bounded version "VERSION")
          >>= write_val (q ["LEVEL"; "CMD"])
          >>= (fun p =>
            let level :=
              match level with
              | JStr (c :: s) => JStr (c :: s)
              | _ => cmd ["CODE2D_FORMAT"; "QR_LEVEL_L"]
              end in
            match level with
            | JStr l =>
                write_val (cmd_at ["MODEL"; "QSPRINTER"; "CODE2D_FORMAT"; "LEVEL"; "OPTIONS"]
                             (toUpperCase l)) p
            | _ => Throw not_a_function p
            end)
          >>= write_val (q ["SAVEBUF"; "CMD_P1"])
          >>= writeUInt16LE (plus_len_offset n)
          >>= write_val (q ["SAVEBUF"; "CMD_P2"])
          >>= write_bytes dataRaw
          >>= write_val (q ["PRINTBUF"; "CMD_P1"])
          >>= writeUInt16LE (plus_len_offset n)
          >>= write_val (q ["PRINTBUF"; "CMD_P2"])
    end.

(** *** Images *)

Definition only_Image : exn := TypeError "Only escpos.Image supported".

(** [raster(image, mode)]; [image] is [None] for a value that is not an
    [Image]. *)
Definition raster (image : option Image) (mode : option jsstring) (p : Printer) : result :=
  match image with
  | None => Throw only_Image p
  | Some image =>
      let mode := str_or mode (js "normal") in
      let mode :=
        if streq mode (js "dhdw") || streq mode (js "dwh") || streq mode (js "dhw")
        then js "dwdh" else mode in
      let '(data, w, h) := toRaster image in
      write_val (cmd_at ["GSV0_FORMAT"] (js "GSV0_" ++ toUpperCase mode)) p
      >>= writeUInt16LE (Some w)
      >>= writeUInt16LE (Some h)
      >>= write_bytes data
  end.

(** One band of [image]: the callback of [forEach] up to its [await].  It is
    an async function, so a throw inside it ends this band only. *)
Definition image_band (header : jsval) (n : Z) (p : Printer) (line : list byte) : Printer :=
  state_of
    (write_val header p
     >>= writeUInt16LE_div (len_bytes line) n
     >>= write_bytes line
     >>= write_val (cmd ["EOL"])).

(** [image(image, density)], an async function: the builder when its promise
    settles, [Throw] for a rejection.  The bands are written before the first
    timer runs, in order. *)
Definition image (image : option Image) (density : option jsstring) (p : Printer) : result :=
  match image with
  | None => Throw only_Image p
  | Some image =>
      let density := str_or density (js "d24") in
      let n := if streq density (js "d8") || streq density (js "s8") then 1 else 3 in
      let header := cmd_at ["BITMAP_FORMAT"] (js "BITMAP_" ++ toUpperCase density) in
      let bitmap := toBitmap image (n * 8) in
      lineSpace (Some (JNum 0)) p
      >>= (fun p => Ok (fold_left (image_band header n) bitmap p))
      >>= lineSpace None
  end.

(** *** Hardware *)

Definition cashdraw (pin : jsval) (p : Printer) : result :=
  write_val (cmd_at ["CASH_DRAWER"] (js "CD_KICK_" ++ ToString (or_else pin (JNum 2)))) p.

Definition beep (n t : jsval) (p : Printer) : result :=
  write_val (cmd ["BEEP"]) p >>= writeUInt8 n >>= writeUInt8 t.

Definition flush (p : Printer) : result :=
  let (buf, p) := buffer_flush p in
  Ok (adapter_write buf p).

Definition cut (part : bool) (n : option Z) (p : Printer) : result :=
  feed (Some (num_or n 3)) p
  >>= write_val (cmd ["PAPER"; if part then "PAPER_PART_CUT" else "PAPER_FULL_CUT"]).

Definition color (c : jsval) (p : Printer) : result :=
  write_val
    (cmd_at ["COLOR"]
       (ToString match c with JNum 0 => JNum 0 | JNum 1 => JNum 1 | _ => JNum 0 end)) p.

Definition setReverseColors (b : bool) (p : Printer) : result :=
  write_val (if b then cmd ["COLOR"; "REVERSE"] else cmd ["COLOR"; "UNREVERSE"]) p.

(** White space as [\s] matches it. *)
Definition is_space (c : char) : bool :=
  ((9 <=? c) && (c <=? 13) || (c =? 32) || (c =? 0xA0) || (c =? 0x1680)
   || (0x2000 <=? c) && (c <=? 0x200A) || (c =? 0x2028) || (c =? 0x2029)
   || (c =? 0x202F) || (c =? 0x205F) || (c =? 0x3000) || (c =? 0xFEFF))%N.

(** [raw(data)] for a Buffer or a string. *)
Definition raw (data : content) (p : Printer) : result :=
  match data with
  | Bytes b => write_bytes b p
  | Text s =>
      let data := toLowerCase s in
      write_bytes
        (Buffer_from_hex (filter (fun c => negb (is_space c || N.eqb c 58)) data)) p
  end.

(** *** Tables *)

(** A loop that may not end is run on [fuel]: [None] when the fuel runs out. *)

(** An integer as a JavaScript number (binary64). *)
Definition Z2F (z : Z) : float := SF2Prim (binary_normalize prec emax z 0 false).

(** The truth value of a number: false for 0 and [NaN]. *)
Definition truthy_num (x : float) : bool :=
  negb (PrimFloat.eqb x 0 || PrimFloat.is_nan x).

(** The index [substring] makes of a number for a string of length [n]:
    its integer part brought into [0, n], and 0 for [NaN]. *)
Definition clamp_index (x : float) (n : nat) : nat :=
  match Prim2SF x with
  | S754_nan | S754_zero _ => 0%nat
  | S754_infinity s => if s then 0%nat else n
  | S754_finite s m e =>
      if s then 0%nat else Nat.min n (Z.to_nat (Z.shiftl (Zpos m) e))
  end.

(** [for (var j = 0; j < spaces; j++) str += " "], from [j] on. *)
Fixpoint spaces_loop (fuel : nat) (j spaces : float) (str : jsstring) : option jsstring :=
  match fuel with
  | O => None
  | S fuel =>
      if PrimFloat.ltb j spaces
      then spaces_loop fuel (j + 1)%float spaces (str ++ js " ")
      else Some str
  end.

(** The loop of [table] over [data], from the current [lineTxt] on. *)
Fixpoint table_line (fuel : nat) (cellWidth : float) (data : list jsstring)
    (lineTxt : jsstring) : option jsstring :=
  match data with
  | [] => Some lineTxt
  | d :: rest =>
      let spaces := (cellWidth - Z2F (len d))%float in
      match spaces_loop fuel 0%float spaces (lineTxt ++ d) with
      | Some lineTxt => table_line fuel cellWidth rest lineTxt
      | None => None
      end
  end.

Definition table (fuel : nat) (data : list jsstring) (enc : option jsstring)
    (p : Printer) : option result :=
  let cellWidth := (Z2F (width p) / Z2F (Z.of_nat (length data)))%float in
  match table_line fuel cellWidth data [] with
  | Some lineTxt =>
      Some match iconv_encode (lineTxt ++ EOL) (str_or enc (encoding p)) with
           | Some b => write_bytes b p
           | None => Throw not_recognized p
           end
  | None => None
  end.

(** A cell of [tableCustom]; the cells of one call are distinct objects. *)
Record Cell := {
  c_text : jsstring;
  c_width : option float;
  c_cols : option float;
  c_align : option jsstring;
  c_originalText : option jsstring }.

Definition align_is (name : string) (obj : Cell) : bool :=
  match c_align obj with Some a => streq a (js name) | None => false end.

(** The variables of [tableCustom] that its loop over [data] updates. *)
Record row := {
  cellWidth : float;
  lineStr : jsstring;
  secondLine : list Cell;
  secondLineEnabled : bool }.

(** One turn of the loop of [tableCustom], for the cell [obj].  Appending
    [obj.text] only when it is not empty appends it always. *)
Definition custom_cell (fuel : nat) (w : Z) (r : row) (obj : Cell) : option row :=
  let cellWidth :=
    match c_width obj, c_cols obj with
    | Some x, Some y =>
        if truthy_num x then (Z2F w * x)%float
        else if truthy_num y then y else cellWidth r
    | Some x, None => if truthy_num x then (Z2F w * x)%float else cellWidth r
    | None, Some y => if truthy_num y then y else cellWidth r
    | None, None => cellWidth r
    end in
  let tooLong := PrimFloat.ltb cellWidth (Z2F (len (c_text obj))) in
  let originalText := if tooLong then Some (c_text obj) else c_originalText obj in
  let text :=
    if tooLong
    then substring (c_text obj) 0 (clamp_index (cellWidth - 1)%float (length (c_text obj)))
    else c_text obj in
  let line :=
    if align_is "CENTER" obj then
      let spaces := ((cellWidth - Z2F (len text)) / 2)%float in
      match spaces_loop fuel 0%float spaces (lineStr r) with
      | Some s => spaces_loop fuel 0%float (spaces - 1)%float (s ++ text)
      | None => None
      end
    else if align_is "RIGHT" obj then
      let spaces := (cellWidth - Z2F (len text))%float in
      match spaces_loop fuel 0%float spaces (lineStr r) with
      | Some s => Some (s ++ text)
      | None => None
      end
    else
      let spaces := (cellWidth - Z2F (len text))%float in
      spaces_loop fuel 0%float spaces (lineStr r ++ text) in
  match line with
  | None => None
  | Some line =>
      let rest :=
        if tooLong
        then substring (c_text obj)
               (clamp_index (cellWidth - 1)%float (length (c_text obj)))
               (length (c_text obj))
        else [] in
      Some {| cellWidth := cellWidth;
              lineStr := line;
              secondLine :=
                secondLine r ++
                [{| c_text := rest; c_width := c_width obj; c_cols := c_cols obj;
                    c_align := c_align obj; c_originalText := originalText |}];
              secondLineEnabled := tooLong || secondLineEnabled r |}
  end.

Fixpoint custom_row (fuel : nat) (w : Z) (r : row) (data : list Cell) : option row :=
  match data with
  | [] => Some r
  | obj :: rest =>
      match custom_cell fuel w r obj with
      | Some r => custom_row fuel w r rest
      | None => None
      end
  end.

(** The variables of [tableCustom] before its loop. *)
Definition row_start (w : Z) (data : list Cell) : row :=
  {| cellWidth := (Z2F w / Z2F (Z.of_nat (length data)))%float;
     lineStr := []; secondLine := []; secondLineEnabled := false |}.

Fixpoint tableCustom (fuel : nat) (data : list Cell) (enc : option jsstring)
    (p : Printer) : option result :=
  match fuel with
  | O => None
  | S fuel =>
      match custom_row fuel (width p) (row_start (width p) data) data with
      | None => None
      | Some r =>
          match iconv_encode (lineStr r ++ EOL) (str_or enc (encoding p)) with
          | None => Some (Throw not_recognized p)
          | Some b =>
              if secondLineEnabled r
              then tableCustom fuel (secondLine r) None (emit b p)
              else Some (Ok (emit b p))
          end
      end
  end.

(** *** Layouts built on [text] *)

(** The loop of [lineTitle] from [i] on, [n] turns being left; [otherWidth / 2]
    is compared after doubling both sides. *)
Fixpoint lineTitle_loop (n : nat) (i otherWidth strWidth : Z) (title str : jsstring)
  : jsstring :=
  match n with
  | O => str
  | S n =>
      if (otherWidth <=? 2 * i) && (2 * i <? otherWidth + 2 * strWidth)
      then str ++ title ++ str
      else lineTitle_loop n (i + 1) otherWidth strWidth title (str ++ js "-")
  end.

Definition lineTitle (title : jsstring) (charLength : option Z) (p : Printer) : result :=
  let charLength := match charLength with Some c => c | None => 2 end in
  let strWidth := len title * charLength in
  let otherWidth := width p - strWidth in
  let str := lineTitle_loop (Z.to_nat (width p)) 0 otherWidth strWidth title [] in
  align (js "CT") p >>= size 1 1 >>= text str None.

(** The index [substring] makes of [wrapByte / 2] for a string of length [n]. *)
Definition half_index (wrapByte : Z) (n : nat) : nat :=
  Nat.min n (Z.to_nat (Z.quot wrapByte 2)).

Definition spaces (n : Z) (str : jsstring) : jsstring :=
  for_lt n (fun s => s ++ js " ") str.

Definition controlText (leftStr rightStr : jsstring) (wrapByte : option Z)
    (p : Printer) : result :=
  let wrapByte := match wrapByte with Some w => w | None => 32 end in
  let l_bytes := bytesLength leftStr in
  let r_bytes := bytesLength rightStr in
  if l_bytes >? wrapByte then
    let k := half_index wrapByte (length leftStr) in
    let tempStr := substring leftStr k (length leftStr) in
    let leftText := substring leftStr 0 k in
    let tempBytes := bytesLength leftText in
    let spaceLength := width p - tempBytes - r_bytes in
    let str := spaces spaceLength leftText ++ rightStr in
    text str None p >>= text tempStr None
  else
    let spaceLength := width p - l_bytes - r_bytes in
    let str := spaces spaceLength leftStr ++ rightStr in
    text str None p.

(** The argument of [threeColumnLayout]. *)
Record Columns := {
  leftTxt : jsstring;
  centerTxt : jsstring;
  rightTxt : jsstring;
  leftSpace : option Z }.

Definition threeColumnLayout (t : Columns) (wrapByte : option Z) (p : Printer) : result :=
  let wrapByte := match wrapByte with Some w => w | None => 32 end in
  let l_bytes := bytesLength (leftTxt t) in
  let c_bytes := bytesLength (centerTxt t) in
  let r_bytes := bytesLength (rightTxt t) in
  let w := width p in
  let leftSpace := num_or (leftSpace t) 0 in
  if l_bytes >? wrapByte then
    let k := half_index wrapByte (length (leftTxt t)) in
    let tempStr := substring (leftTxt t) k (length (leftTxt t)) in
    let str := substring (leftTxt t) 0 k in
    let tempBytes := bytesLength (leftTxt t) in
    (if negb (leftSpace =? 0) then text (spaceText str (rightTxt t) w) None p
     else
       (* Math.round of a half-integer goes up *)
       let spaceLength := (w - tempBytes - c_bytes - r_bytes + 1) / 2 in
       let str := spaces spaceLength str ++ centerTxt t in
       let str := spaces spaceLength str ++ rightTxt t in
       text str None p)
    >>= text tempStr None
  else
    let str := leftTxt t in
    if negb (leftSpace =? 0) then
      let txtL := spaceText str (centerTxt t) leftSpace in
      let txt := spaceText txtL (rightTxt t) w in
      text txt None p
    else
      (* Math.floor *)
      let spaceLength := (w - l_bytes - c_bytes - r_bytes) / 2 in
      let str := spaces spaceLength str ++ centerTxt t in
      let str := spaces spaceLength str ++ rightTxt t in
      text str None p.

(** A head cell and a body row of [fourColumnLayout]; [space] is [None] when
    the property is missing. *)
Record Thead := {
  th_text : jsstring;
  th_space : option Z }.

Record Tbody := {
  title : option jsstring;
  col1 : jsstring;
  col2 : jsstring;
  col3 : jsstring;
  col4 : jsstring }.

Definition undefined_property : exn :=
  TypeError "Cannot read properties of undefined".

(** [a + b] where either may be [NaN]. *)
Definition plus (a b : option Z) : option Z :=
  match a, b with Some x, Some y => Some (x + y) | _, _ => None end.

(** [utils.spaceText(a, b, width)] for a width that may be [NaN]: the loop
    then does not run. *)
Definition spaceText_nan (a b : jsstring) (w : option Z) : jsstring :=
  match w with Some w => spaceText a b w | None => a ++ b end.

Definition spaces_nan (n : option Z) (str : jsstring) : jsstring :=
  match n with Some n => spaces n str | None => str end.

(** The callback of [tbody.forEach]. *)
Definition fourColumn_row (th1 th2 th3 : option Z) (wrapByte : Z)
    (r : result) (itemx : Tbody) : result :=
  r >>= fun p =>
  let firstTxtBytes := bytesLength (col1 itemx) in
  let k := half_index wrapByte (length (col1 itemx)) in
  let tempStr :=
    if firstTxtBytes >? wrapByte
    then substring (col1 itemx) k (length (col1 itemx)) else [] in
  let txt1 :=
    if firstTxtBytes >? wrapByte
    then spaceText_nan (substring (col1 itemx) 0 k) (col2 itemx) th1
    else spaceText_nan (col1 itemx) (col2 itemx) th1 in
  (match title itemx with
   | Some (c :: s) => align (js "LT") p >>= text (c :: s) None
   | _ => Ok p
   end)
  >>= (fun p =>
    let txt2 := spaceText_nan txt1 (col3 itemx) th2 in
    let txt3 := spaceText_nan txt2 (col4 itemx) th3 in
    text txt3 None p)
  >>= (fun p =>
    match tempStr with
    | [] => Ok p
    | _ => text tempStr None p
    end).

Definition fourColumnLayout (thead : option (list Thead)) (tbody : list Tbody)
    (wrapByte : option Z) (p : Printer) : result :=
  let wrapByte := match wrapByte with Some w => w | None => 16 end in
  match thead with
  | None | Some [] => Ok p
  | Some (h0 :: h1 :: h2 :: h3 :: _) =>
      let b (h : Thead) := Some (bytesLength (th_text h)) in
      let th1_length := plus (plus (b h0) (b h1)) (th_space h0) in
      let th2_length := plus (plus th1_length (th_space h1)) (b h1) in
      let th3_length := plus (plus th2_length (th_space h2)) (b h2) in
      let h_str := spaces_nan (th_space h0) (th_text h0) ++ th_text h1 in
      let h_str := spaces_nan (th_space h1) h_str ++ th_text h2 in
      let h_str := spaces_nan (th_space h2) h_str ++ th_text h3 in
      fold_left (fourColumn_row th1_length th2_length th3_length wrapByte) tbody
        (text h_str None p)
  | Some _ => Throw undefined_property p
  end.

(** *** A call of the builder *)

Inductive op :=
| Model (m : option jsstring)
| SetCharacterCodeTable (codeTable : jsval)
| MarginBottom (n : jsval)
| MarginLeft (n : jsval)
| MarginRight (n : jsval)
| Print (c : content)
| Println (s : jsstring)
| NewLine
| TextOp (s : jsstring) (enc : option jsstring)
| DrawLine
| Table (data : list jsstring) (enc : option jsstring)
| TableCustom (data : list Cell) (enc : option jsstring)
| PureText (s : jsstring) (enc : option jsstring)
| Encode (enc : jsstring)
| Feed (n : option Z)
| Control (ctrl : jsstring)
| Align (a : jsstring)
| Font (family : jsstring)
| Style (type : jsstring)
| Size (w h : Z)
| Spacing (n : option jsval)
| LineSpace (n : option jsval)
| Hardware (hw : jsstring)
| Barcode (code : jsstring) (type : option jsstring) (arg2 : barcode_arg)
    (arg3 : jsval) (arg4 arg5 : option jsstring)
| Qrcode (code : jsstring) (version level size : jsval)
| ImageOp (image : option Image) (density : option jsstring)
| Raster (image : option Image) (mode : option jsstring)
| Cashdraw (pin : jsval)
| Beep (n t : jsval)
| Cut (part : bool) (n : option Z)
| Color (c : jsval)
| SetReverseColors (b : bool)
| Raw (data : content)
| LineTitle (title : jsstring) (charLength : option Z)
| ControlText (leftStr rightStr : jsstring) (wrapByte : option Z)
| ThreeColumnLayout (t : Columns) (wrapByte : option Z)
| FourColumnLayout (thead : option (list Thead)) (tbody : list Tbody)
    (wrapByte : option Z).

(** The call [o] on the builder [p]; [None] when a loop of it is still running
    after [fuel] turns. *)
Definition call (fuel : nat) (o : op) (p : Printer) : option result :=
  match o with
  | Model m => Some (model m p)
  | SetCharacterCodeTable t => Some (setCharacterCodeTable t p)
  | MarginBottom n => Some (marginBottom n p)
  | MarginLeft n => Some (marginLeft n p)
  | MarginRight n => Some (marginRight n p)
  | Print c => Some (print c p)
  | Println s => Some (println s p)
  | NewLine => Some (newLine p)
  | TextOp s e => Some (text s e p)
  | DrawLine => Some (drawLine p)
  | Table d e => table fuel d e p
  | TableCustom d e => tableCustom fuel d e p
  | PureText s e => Some (pureText s e p)
  | Encode e => Some (encode e p)
  | Feed n => Some (feed n p)
  | Control c => Some (control c p)
  | Align a => Some (align a p)
  | Font f => Some (font f p)
  | Style t => Some (style t p)
  | Size w h => Some (size w h p)
  | Spacing n => Some (spacing n p)
  | LineSpace n => Some (lineSpace n p)
  | Hardware h => Some (hardware h p)
  | Barcode c t a2 a3 a4 a5 => Some (barcode c t a2 a3 a4 a5 p)
  | Qrcode c v l s => Some (qrcode c v l s p)
  | ImageOp i d => Some (image i d p)
  | Raster i m => Some (raster i m p)
  | Cashdraw n => Some (cashdraw n p)
  | Beep n t => Some (beep n t p)
  | Cut b n => Some (cut b n p)
  | Color c => Some (color c p)
  | SetReverseColors b => Some (setReverseColors b p)
  | Raw d => Some (raw d p)
  | LineTitle t c => Some (lineTitle t c p)
  | ControlText l r w => Some (controlText l r w p)
  | ThreeColumnLayout t w => Some (threeColumnLayout t w p)
  | FourColumnLayout h b w => Some (fourColumnLayout h b w p)
  end.

(** A sequence of calls, each made on the builder the one before left, whether
    that one returned or threw (the caller caught it). *)
Fixpoint calls (fuel : nat) (os : list op) (p : Printer) : option Printer :=
  match os with
  | [] => Some p
  | o :: rest =>
      match call fuel o p with
      | Some r => calls fuel rest (state_of r)
      | None => None
      end
  end.

(** The bytes each call of the sequence appended: what the buffer holds after
    the call beyond what it held before. *)
Fixpoint appended (fuel : nat) (os : list op) (p : Printer) : list (list byte) :=
  match os with
  | [] => []
  | o :: rest =>
      match call fuel o p with
      | Some r =>
          skipn (length (buffer p)) (buffer (state_of r))
            :: appended fuel rest (state_of r)
      | None => []
      end
  end.

End Builder.

(** ** A concrete environment

    The theorems below hold for every [Env].  This one serves to run the
    definitions on concrete inputs: a command table with the byte values the
    ESC/POS protocol documents for its entries, a transcoder that knows three
    encodings, case mapping and number parsing that are exact on ASCII, and
    images given by their raster. *)

Module Sample.

Definition entries : list (list string * jsval) :=
  let s (l : list N) := JStr l in
  [ (["EOL"], s [10]);  (["ESC"], s [0x1b]);  (["TAB"], s [0x74]);
    (["BEEP"], s [0x1b; 0x42]);
    (["MARGINS"; "BOTTOM"], s [0x1b; 0x4f]);
    (["MARGINS"; "LEFT"], s [0x1b; 0x6c]);
    (["MARGINS"; "RIGHT"], s [0x1b; 0x51]);
    (["LINE_SPACING"; "LS_DEFAULT"], s [0x1b; 0x32]);
    (["LINE_SPACING"; "LS_SET"], s [0x1b; 0x33]);
    (["TEXT_FORMAT"; "TXT_NORMAL"], s [0x1b; 0x21; 0]);
    (["TEXT_FORMAT"; "TXT_2HEIGHT"], s [0x1b; 0x21; 0x10]);
    (["TEXT_FORMAT"; "TXT_2WIDTH"], s [0x1b; 0x21; 0x20]);
    (["TEXT_FORMAT"; "TXT_4SQUARE"], s [0x1b; 0x21; 0x30]);
    (["TEXT_FORMAT"; "TXT_BOLD_OFF"], s [0x1b; 0x45; 0]);
    (["TEXT_FORMAT"; "TXT_BOLD_ON"], s [0x1b; 0x45; 1]);
    (["TEXT_FORMAT"; "TXT_FONT_A"], s [0x1b; 0x4d; 0]);
    (["TEXT_FORMAT"; "TXT_FONT_B"], s [0x1b; 0x4d; 1]);
    (["TEXT_FORMAT"; "TXT_ALIGN_LT"], s [0x1b; 0x61; 0]);
    (["TEXT_FORMAT"; "TXT_ALIGN_CT"], s [0x1b; 0x61; 1]);
    (["TEXT_FORMAT"; "TXT_ALIGN_RT"], s [0x1b; 0x61; 2]);
    (["BARCODE_FORMAT"; "BARCODE_TXT_OFF"], s [0x1d; 0x48; 0]);
    (["BARCODE_FORMAT"; "BARCODE_TXT_ABV"], s [0x1d; 0x48; 1]);
    (["BARCODE_FORMAT"; "BARCODE_TXT_BLW"], s [0x1d; 0x48; 2]);
    (["BARCODE_FORMAT"; "BARCODE_FONT_A"], s [0x1d; 0x66; 0]);
    (["BARCODE_FORMAT"; "BARCODE_FONT_B"], s [0x1d; 0x66; 1]);
    (["BARCODE_FORMAT"; "BARCODE_HEIGHT_DEFAULT"], s [0x1d; 0x68; 0x64]);
    (["BARCODE_FORMAT"; "BARCODE_WIDTH"; "1"], s [0x1d; 0x77; 2]);
    (["BARCODE_FORMAT"; "BARCODE_WIDTH"; "2"], s [0x1d; 0x77; 3]);
    (["BARCODE_FORMAT"; "BARCODE_WIDTH"; "3"], s [0x1d; 0x77; 4]);
    (["BARCODE_FORMAT"; "BARCODE_WIDTH"; "4"], s [0x1d; 0x77; 5]);
    (["BARCODE_FORMAT"; "BARCODE_WIDTH"; "5"], s [0x1d; 0x77; 6]);
    (["BARCODE_FORMAT"; "BARCODE_WIDTH_DEFAULT"], s [0x1d; 0x77; 1]);
    (["BARCODE_FORMAT"; "BARCODE_EAN13"], s [0x1d; 0x6b; 2]);
    (["BARCODE_FORMAT"; "BARCODE_EAN8"], s [0x1d; 0x6b; 3]);
    (["BARCODE_FORMAT"; "BARCODE_CODE93"], s [0x1d; 0x6b; 0x48]);
    (["BARCODE_FORMAT"; "BARCODE_CODE128"], s [0x1d; 0x6b; 0x49]);
    (["CODE2D_FORMAT"; "TYPE_QR"], s [0x1d; 0x5a; 2]);
    (["CODE2D_FORMAT"; "CODE2D"], s [0x1b; 0x5a]);
    (["CODE2D_FORMAT"; "QR_LEVEL_L"], s [0x4c]);
    (["CODE2D_FORMAT"; "QR_LEVEL_M"], s [0x4d]);
    (["CODE2D_FORMAT"; "QR_LEVEL_Q"], s [0x51]);
    (["CODE2D_FORMAT"; "QR_LEVEL_H"], s [0x48]);
    (["GSV0_FORMAT"; "GSV0_NORMAL"], s [0x1d; 0x76; 0x30; 0]);
    (["GSV0_FORMAT"; "GSV0_DWDH"], s [0x1d; 0x76; 0x30; 3]);
    (["BITMAP_FORMAT"; "BITMAP_D8"], s [0x1b; 0x2a; 1]);
    (["BITMAP_FORMAT"; "BITMAP_D24"], s [0x1b; 0x2a; 0x21]);
    (["PAPER"; "PAPER_FULL_CUT"], s [0x1d; 0x56; 0]);
    (["PAPER"; "PAPER_PART_CUT"], s [0x1d; 0x56; 1]);
    (["MODEL"; "QSPRINTER"; "BARCODE_MODE"; "ON"], s [0x1d; 0x45; 0x43; 1]);
    (["MODEL"; "QSPRINTER"; "BARCODE_MODE"; "OFF"], s [0x1d; 0x45; 0x43; 0]);
    (["MODEL"; "QSPRINTER"; "BARCODE_HEIGHT_DEFAULT"], s [0x1d; 0x68; 0x22]);
    (["MODEL"; "QSPRINTER"; "CODE2D_FORMAT"; "PIXEL_SIZE"; "CMD"],
     s [0x1b; 0x23; 0x23; 0x51; 0x50; 0x49; 0x58]);
    (["MODEL"; "QSPRINTER"; "CODE2D_FORMAT"; "PIXEL_SIZE"; "MIN"], JNum 1);
    (["MODEL"; "QSPRINTER"; "CODE2D_FORMAT"; "PIXEL_SIZE"; "MAX"], JNum 24);
    (["MODEL"; "QSPRINTER"; "CODE2D_FORMAT"; "PIXEL_SIZE"; "DEFAULT"], JNum 12);
    (["MODEL"; "QSPRINTER"; "CODE2D_FORMAT"; "VERSION"; "CMD"],
     s [0x1d; 0x28; 0x6b; 3; 0; 0x31; 0x43]);
    (["MODEL"; "QSPRINTER"; "CODE2D_FORMAT"; "VERSION"; "MIN"], JNum 1);
    (["MODEL"; "QSPRINTER"; "CODE2D_FORMAT"; "VERSION"; "MAX"], JNum 16);
    (["MODEL"; "QSPRINTER"; "CODE2D_FORMAT"; "VERSION"; "DEFAULT"], JNum 3);
    (["MODEL"; "QSPRINTER"; "CODE2D_FORMAT"; "LEVEL"; "CMD"],
     s [0x1d; 0x28; 0x6b; 3; 0; 0x31; 0x45]);
    (["MODEL"; "QSPRINTER"; "CODE2D_FORMAT"; "LEVEL"; "OPTIONS"; "L"], s [48]);
    (["MODEL"; "QSPRINTER"; "CODE2D_FORMAT"; "LEVEL"; "OPTIONS"; "M"], s [49]);
    (["MODEL"; "QSPRINTER"; "CODE2D_FORMAT"; "LEVEL"; "OPTIONS"; "Q"], s [50]);
    (["MODEL"; "QSPRINTER"; "CODE2D_FORMAT"; "LEVEL"; "OPTIONS"; "H"], s [51]);
    (["MODEL"; "QSPRINTER"; "CODE2D_FORMAT"; "LEN_OFFSET"], JNum 3);
    (["MODEL"; "QSPRINTER"; "CODE2D_FORMAT"; "SAVEBUF"; "CMD_P1"], s [0x1d; 0x28; 0x6b]);
    (["MODEL"; "QSPRINTER"; "CODE2D_FORMAT"; "SAVEBUF"; "CMD_P2"], s [0x31; 0x50; 0x30]);
    (["MODEL"; "QSPRINTER"; "CODE2D_FORMAT"; "PRINTBUF"; "CMD_P1"], s [0x1d; 0x28; 0x6b]);
    (["MODEL"; "QSPRINTER"; "CODE2D_FORMAT"; "PRINTBUF"; "CMD_P2"], s [0x31; 0x51; 0x30])
  ]%N.

Fixpoint path_eqb (a b : list jsstring) : bool :=
  match a, b with
  | [], [] => true
  | x :: a', y :: b' => streq x y && path_eqb a' b'
  | _, _ => false
  end.

Fixpoint lookup (t : list (list string * jsval)) (path : list jsstring) : jsval :=
  match t with
  | [] => undefined
  | (k, v) :: rest => if path_eqb (map js k) path then v else lookup rest path
  end.

Definition upper (c : char) : char := (if (97 <=? c) && (c <=? 122) then c - 32 else c)%N.
Definition lower (c : char) : char := (if (65 <=? c) && (c <=? 90) then c + 32 else c)%N.

(** A string of decimal digits as a number, anything else as [NaN]. *)
Fixpoint digits_value (s : jsstring) (acc : Z) : option Z :=
  match s with
  | [] => Some acc
  | c :: rest =>
      if ((48 <=? c) && (c <=? 57))%N
      then digits_value rest (10 * acc + (Z.of_N c - 48))
      else None
  end.

Definition utf16le (s : jsstring) : list byte :=
  flat_map (fun c => [u8 c; u8 (c / 256)]%N) s.

Definition encode_as (s enc : jsstring) : option (list byte) :=
  if streq enc (js "utf8") then Some (utf8_encode s)
  else if streq enc (js "utf16le") then Some (utf16le s)
  else if streq enc (js "latin1") then Some (map u8 s)
  else None.

Definition env : Env :=
  {| commands := lookup entries;
     TXT_CUSTOM_SIZE := fun w h =>
       let w := Z.max 1 (Z.min 8 w) in
       let h := Z.max 1 (Z.min 8 h) in
       JStr [0x1d; 0x21; Z.to_N ((w - 1) * 16 + (h - 1))]%N;
     BARCODE_HEIGHT := fun h =>
       match h with
       | JNum n => JStr [0x1d; 0x68; Z.to_N n]%N
       | _ => JStr [0x1d; 0x68; 0]%N
       end;
     iconv_encode := encode_as;
     toUpperCase := map upper;
     toLowerCase := map lower;
     StringToNumber := fun s => match s with [] => Some 0 | _ => digits_value s 0 end;
     Image := list byte * Z * Z;
     toRaster := fun i => i;
     toBitmap := fun i _ => [fst (fst i)] |}.

(** [new Printer(adapter, {encoding: 'utf8'})] *)
Definition printer : Printer :=
  @new_Printer (Some {| opt_encoding := Some (js "utf8"); opt_width := None |}).

(** The same after [model('qsprinter')]. *)
Definition qsprinter : Printer :=
  state_of (model (Some (js "qsprinter")) printer).

End Sample.

(** ** The vocabulary of the specification *)

Definition is_digit (c : char) : bool := ((48 <=? c) && (c <=? 57))%N.

(** The value of a decimal digit. *)
Definition digit (c : char) : Z := Z.of_N c - 48.

(** The weight of the position [i]: 3 when [i] is odd, else 1. *)
Definition weight (i : Z) : Z := if Z.odd i then 3 else 1.

(** The sum of the digits [ds], the first weighted as position [i], the next
    as [i + 1], and so on. *)
Fixpoint weighted_sum (i : Z) (ds : list Z) : Z :=
  match ds with
  | [] => 0
  | d :: rest => d * weight i + weighted_sum (i + 1) rest
  end.

(** The check digit as the specification computes it: the digits reversed,
    the one at index [i] multiplied by 3 when [i + 1] is odd and by 1
    otherwise, and [(10 - sum mod 10) mod 10]. *)
Definition checkDigit_spec (digits : jsstring) : Z :=
  (10 - weighted_sum 1 (map digit (rev digits)) mod 10) mod 10.

(** The EAN sum of a complete code: from the right, the check digit counts
    once, the digit before it three times, and so on in turn. *)
Definition ean_sum (code : jsstring) : Z :=
  weighted_sum 0 (map digit (rev code)).

(** The width of one character: 1 up to U+00FF, else 2. *)
Definition char_width (c : char) : Z := if (c <=? 0xFF)%N then 1 else 2.

Definition sum_widths (s : jsstring) : Z :=
  fold_right (fun c n => char_width c + n) 0 s.

(** [codeLength] as a function of the length of its argument. *)
Definition codeLength_of (n : nat) : jsstring :=
  Buffer_toString (Buffer_from_hex (toString16 (N.of_nat n))).

(** The errors that the specification calls InvalidArgument: the ones the
    builder itself throws. *)
Definition invalid_argument (e : exn) : bool :=
  match e with
  | Error m =>
      String.eqb m "EAN13 Barcode type requires code length 12"
      || String.eqb m "EAN8 Barcode type requires code length 7"
      || String.eqb m "Invalid code length in byte. Must be between 1 and 2710"
  | TypeError m =>
      String.eqb m "Only escpos.Image supported"
      || String.eqb m "barcode type is required"
  | RangeError _ => false
  end.

(** [q] is [p] with bytes appended to the buffer and nothing handed to the
    adapter. *)
Definition only_appends (p q : Printer) : Prop :=
  (exists bytes, buffer q = buffer p ++ bytes) /\ adapter q = adapter p.

(** A result that is no InvalidArgument error. *)
Definition benign (r : result) : Prop :=
  match r with
  | Ok _ => True
  | Throw e _ => invalid_argument e = false
  end.

(** A step from [p] that appends, and throws no InvalidArgument error. *)
Definition quiet (p : Printer) (r : result) : Prop :=
  only_appends p (state_of r) /\ benign r.

(** A call from [p] that appends, and leaves [p] as it was when it throws an
    InvalidArgument error. *)
Definition guarded (p : Printer) (r : result) : Prop :=
  only_appends p (state_of r)
  /\ match r with
     | Ok _ => True
     | Throw e q => invalid_argument e = true -> q = p
     end.

(** *** Vocabulary of the further properties *)

(** A result whose builder is [p] with bytes appended to the buffer: the
    adapter, the options, the encoding, the width and the model are those of
    [p]. *)
Definition steady (p : Printer) (r : result) : Prop :=
  exists bytes, state_of r = emit bytes p.

(** A 16-bit number, low byte first. *)
Definition le16 (n : Z) : list byte := [u8 (Z.to_N n); u8 (Z.to_N n / 256)].

(** The lower-case hexadecimal digit of value [n]. *)
Definition hex_char (n : N) : char := (if n <? 10 then 48 + n else 87 + n)%N.

(** The two hexadecimal digits of a byte. *)
Definition hex2 (b : byte) : jsstring :=
  [hex_char (Byte.to_N b / 16); hex_char (Byte.to_N b mod 16)].

(** A colon or white space, which [raw] removes. *)
Definition is_separator (c : char) : bool := is_space c || N.eqb c 58.

(** Bytes written in hexadecimal, each followed by its separator. *)
Definition hex_text (l : list (byte * jsstring)) : jsstring :=
  flat_map (fun bs => hex2 (fst bs) ++ snd bs) l.

(** A text that does not start with two hexadecimal digits. *)
Definition no_hex_pair (t : jsstring) : bool :=
  match t with
  | a :: b :: _ =>
      match hex_digit a, hex_digit b with
      | Some _, Some _ => false
      | _, _ => true
      end
  | _ => true
  end.

(** The QSPrinter rule for a size or version [v] with bounds [lo], [hi] and
    default [def]: the default unless [v] is a number other than 0, else [v]
    brought into [lo, hi]. *)
Definition clamped (v : jsval) (lo hi def : Z) : Z :=
  match v with
  | JNum n => if n =? 0 then def else Z.max lo (Z.min hi n)
  | _ => def
  end.

(** The command table holds numbers for the bounds of [field]. *)
Definition qs_bounds {env : Env} (field : string) (lo hi def : Z) : Prop :=
  cmd ["MODEL"; "QSPRINTER"; "CODE2D_FORMAT"; field; "MIN"] = JNum lo
  /\ cmd ["MODEL"; "QSPRINTER"; "CODE2D_FORMAT"; field; "MAX"] = JNum hi
  /\ cmd ["MODEL"; "QSPRINTER"; "CODE2D_FORMAT"; field; "DEFAULT"] = JNum def.

(** What one band of [image] appends for a line of the bitmap: the header
    alone when the column count of the line does not fit 16 bits. *)
Definition band {env : Env} (header : jsval) (n : Z) (line : list byte) : list byte :=
  utf8_encode (ToString header)
  ++ (if 65535 * n <? len_bytes line then []
      else le16 (len_bytes line / n) ++ line ++ utf8_encode (ToString (cmd ["EOL"]))).

(** * Properties *)

(** ** utils.js *)

Section UtilsFacts.

Lemma is_digit_range (c : char) :
  is_digit c = true -> 0 <= digit c <= 9.
Proof.
  unfold is_digit, digit. rewrite andb_true_iff, N.leb_le, N.leb_le. lia.
Qed.

Lemma parseInt10_digit (c : char) :
  is_digit c = true -> parseInt10 c = Some (digit c).
Proof.
  unfold is_digit, parseInt10, digit. intros ->. reflexivity.
Qed.

(** [Math.pow(3, (counter + 1) % 2)] is the weight of position [counter + 1]. *)
Lemma pow_rem_weight (counter : Z) :
  0 <= counter -> 3 ^ Z.rem (counter + 1) 2 = weight (counter + 1).
Proof.
  intros H. rewrite Z.rem_mod_nonneg by lia. rewrite Zmod_odd.
  unfold weight. destruct (Z.odd (counter + 1)); reflexivity.
Qed.

Lemma weighted_sum_nonneg (ds : list Z) :
  Forall (fun d => 0 <= d) ds -> forall i, 0 <= weighted_sum i ds.
Proof.
  induction 1 as [|d ds Hd _ IH]; intros i; simpl; [lia|].
  specialize (IH (i + 1)). unfold weight. destruct (Z.odd i); lia.
Qed.

Lemma digits_nonneg (s : jsstring) :
  forallb is_digit s = true -> Forall (fun d => 0 <= d) (map digit s).
Proof.
  induction s as [|c s IH]; simpl; [constructor|].
  rewrite andb_true_iff. intros [Hc Hs]. constructor; [|auto].
  apply is_digit_range in Hc. lia.
Qed.

Lemma parity_loop_digits (l : jsstring) :
  forallb is_digit l = true ->
  forall counter parity, 0 <= counter ->
    parity_loop l counter (Some parity)
    = Some (parity + weighted_sum (counter + 1) (map digit l)).
Proof.
  induction l as [|c l IH]; simpl; intros Hl counter parity Hc.
  - f_equal. lia.
  - apply andb_true_iff in Hl as [Hd Hl].
    rewrite (parseInt10_digit _ Hd), (pow_rem_weight _ Hc).
    rewrite IH by (auto; lia). f_equal. lia.
Qed.

Lemma forallb_rev {A} (f : A -> bool) (l : list A) :
  forallb f (rev l) = forallb f l.
Proof.
  induction l as [|a l IH]; simpl; [reflexivity|].
  rewrite forallb_app, IH. simpl. rewrite andb_true_r. apply andb_comm.
Qed.

(** [String(r)] for one decimal digit. *)
Lemma decimal_digit (r : Z) :
  0 <= r <= 9 -> decimal r = [Z.to_N (48 + r)].
Proof.
  intros H.
  assert (r = 0 \/ r = 1 \/ r = 2 \/ r = 3 \/ r = 4 \/ r = 5 \/ r = 6 \/ r = 7
          \/ r = 8 \/ r = 9) as E by lia.
  repeat (destruct E as [-> | E]; [reflexivity|]). subst r. reflexivity.
Qed.

Lemma checkDigit_spec_range (d : jsstring) : 0 <= checkDigit_spec d <= 9.
Proof.
  unfold checkDigit_spec.
  pose proof (Z.mod_pos_bound (10 - weighted_sum 1 (map digit (rev d)) mod 10) 10).
  lia.
Qed.

Lemma getParityBit_digits (d : jsstring) :
  forallb is_digit d = true ->
  getParityBit d = [Z.to_N (48 + checkDigit_spec d)].
Proof.
  intros Hd. unfold getParityBit.
  rewrite parity_loop_digits by (rewrite ?forallb_rev; auto; lia).
  simpl Z.add.
  assert (0 <= weighted_sum 1 (map digit (rev d))) as Hs.
  { apply weighted_sum_nonneg, digits_nonneg. now rewrite forallb_rev. }
  set (s := weighted_sum 1 (map digit (rev d))) in *.
  pose proof (Z.mod_pos_bound s 10) as Hm.
  rewrite (Z.rem_mod_nonneg s 10) by lia.
  rewrite Z.rem_mod_nonneg by lia.
  apply decimal_digit. fold s. apply (checkDigit_spec_range d).
Qed.

Lemma check_digit_closes_sum (s : Z) :
  ((10 - s mod 10) mod 10 + s) mod 10 = 0.
Proof.
  rewrite Z.add_mod by lia. rewrite Z.mod_mod by lia.
  pose proof (Z.mod_pos_bound s 10) as H.
  assert (s mod 10 = 0 \/ 0 < s mod 10) as [E | E] by lia.
  - rewrite E. reflexivity.
  - rewrite (Z.mod_small (10 - s mod 10)) by lia.
    replace (10 - s mod 10 + s mod 10) with 10 by lia. reflexivity.
Qed.

(** C4. For every string [d] of decimal digits (of 11 or 12 digits in
    particular), [getParityBit d] is one ASCII digit, the one the
    specification computes: the digits reversed, weighted 3 where the index
    plus one is odd and 1 elsewhere, summed, and [(10 - sum mod 10) mod 10].
    Appended to [d] it gives a digit sequence one longer whose EAN weighted
    sum is 0 modulo 10. *)
Theorem getParityBit_completes_ean (d : jsstring) :
  forallb is_digit d = true ->
  getParityBit d = [Z.to_N (48 + checkDigit_spec d)]
  /\ 0 <= checkDigit_spec d <= 9
  /\ length (d ++ getParityBit d) = S (length d)
  /\ forallb is_digit (d ++ getParityBit d) = true
  /\ ean_sum (d ++ getParityBit d) mod 10 = 0.
Proof.
  intros Hd. pose proof (checkDigit_spec_range d) as Hr.
  rewrite (getParityBit_digits d Hd).
  assert (is_digit (Z.to_N (48 + checkDigit_spec d)) = true) as Hc.
  { unfold is_digit. rewrite andb_true_iff, !N.leb_le. lia. }
  repeat split; try lia.
  - rewrite length_app. simpl. lia.
  - rewrite forallb_app, Hd. cbn [forallb andb]. now rewrite Hc.
  - unfold ean_sum. rewrite rev_app_distr. cbn [rev app map weighted_sum].
    replace (digit (Z.to_N (48 + checkDigit_spec d))) with (checkDigit_spec d)
      by (unfold digit; lia).
    change (weight 0) with 1. change (0 + 1) with 1.
    rewrite Z.mul_1_r. unfold checkDigit_spec. apply check_digit_closes_sum.
Qed.

Lemma getParityBit_completes_ean_witness :
  forallb is_digit (js "123456789012") = true
  /\ getParityBit (js "123456789012") = js "8"
  /\ ean_sum (js "1234567890128") mod 10 = 0.
Proof.
  pose proof (getParityBit_completes_ean (js "123456789012") eq_refl)
    as (H1 & _ & _ & _ & H5).
  split; [reflexivity|]. split; [exact H1|exact H5].
Defined.

Lemma bytesLength_from_sum (s : jsstring) :
  forall n, bytesLength_from s n = n + sum_widths s.
Proof.
  induction s as [|c s IH]; intros n; simpl; [lia|].
  rewrite IH. unfold single_byte, char_width. destruct (c <=? 255)%N; lia.
Qed.

Lemma bytesLength_app (a b : jsstring) :
  bytesLength (a ++ b) = bytesLength a + bytesLength b.
Proof.
  unfold bytesLength. rewrite !bytesLength_from_sum.
  induction a as [|c a IH]; simpl in *; lia.
Qed.

Lemma bytesLength_spaces (n : nat) : bytesLength (repeat 32%N n) = Z.of_nat n.
Proof.
  unfold bytesLength. rewrite bytesLength_from_sum.
  induction n as [|n IH]; [reflexivity|].
  cbn [repeat sum_widths fold_right]. change (char_width 32%N) with 1.
  fold (sum_widths (repeat 32%N n)). lia.
Qed.

(** C8. [bytesLength s] is the sum over the characters of [s] (its UTF-16
    code units, as [charAt] yields them) of 1 for a code up to 0x00FF and 2
    otherwise; it is the length for an ASCII string and twice the length for
    a string whose characters are all above 0x00FF. *)
Theorem bytesLength_sum_of_widths (s : jsstring) :
  bytesLength s = sum_widths s
  /\ (forallb (fun c => c <=? 0x7F)%N s = true -> bytesLength s = len s)
  /\ (forallb (fun c => 0xFF <? c)%N s = true -> bytesLength s = 2 * len s).
Proof.
  unfold bytesLength. rewrite bytesLength_from_sum. split; [lia|].
  unfold len. split; induction s as [|c s IH]; intros H;
    try reflexivity; cbn [forallb] in H; apply andb_true_iff in H as [Hc Hs];
    specialize (IH Hs); cbn [sum_widths fold_right length];
    fold (sum_widths s); unfold char_width.
  - apply N.leb_le in Hc.
    destruct (N.leb_spec c 255); [|lia]. rewrite Nat2Z.inj_succ. lia.
  - apply N.ltb_lt in Hc.
    destruct (N.leb_spec c 255); [lia|]. rewrite Nat2Z.inj_succ. lia.
Qed.

(** The padding loop of [spaceText]. *)
Lemma for_lt_spaces (n : Z) (str : jsstring) :
  for_lt n (fun s => s ++ js " ") str = str ++ repeat 32%N (Z.to_nat n).
Proof.
  unfold for_lt. induction (Z.to_nat n) as [|k IH]; simpl.
  - now rewrite app_nil_r.
  - rewrite IH, <- app_assoc. f_equal.
    change (js " ") with [32%N]. clear IH.
    induction k as [|k IH]; [reflexivity|]. simpl. now rewrite IH.
Qed.

(** C7. When [w] is at least the byte widths of [left] and [right] together,
    [spaceText left right w] is [left], then [w] minus both widths spaces,
    then [right], and its byte width is [w]; for a smaller [w] it is [left]
    followed at once by [right]. *)
Theorem spaceText_pads_to_width (left right : jsstring) (w : Z) :
  (bytesLength left + bytesLength right <= w ->
     spaceText left right w
     = left ++ repeat 32%N (Z.to_nat (w - bytesLength left - bytesLength right))
         ++ right
     /\ bytesLength (spaceText left right w) = w)
  /\ (w < bytesLength left + bytesLength right ->
      spaceText left right w = left ++ right).
Proof.
  unfold spaceText. rewrite for_lt_spaces. split; intros H.
  - split; [now rewrite <- app_assoc|].
    rewrite !bytesLength_app, bytesLength_spaces. lia.
  - replace (Z.to_nat (w - bytesLength left - bytesLength right)) with 0%nat by lia.
    simpl. now rewrite app_nil_r.
Qed.

Lemma streq_eq (a b : jsstring) : streq a b = true -> a = b.
Proof.
  revert b. induction a as [|x a IH]; destruct b as [|y b]; simpl;
    try discriminate; [reflexivity|].
  rewrite andb_true_iff, N.eqb_eq. intros [-> E]. f_equal. auto.
Qed.

Lemma streq_refl (a : jsstring) : streq a a = true.
Proof.
  induction a as [|x a IH]; simpl; [reflexivity|].
  now rewrite N.eqb_refl, IH.
Qed.

(** [codeLength] for every length below 256: nothing up to 15, the one
    character of that code up to 127, and U+FFFD (the byte is not UTF-8 on its
    own) from 128 on. *)
Lemma codeLength_below_256 (n : nat) :
  (n < 256)%nat ->
  codeLength_of n
  = if (n <? 16)%nat then []
    else if (n <? 128)%nat then [N.of_nat n] else [0xFFFD%N].
Proof.
  intros H.
  assert (forallb (fun n => streq (codeLength_of n)
                              (if (n <? 16)%nat then []
                               else if (n <? 128)%nat then [N.of_nat n]
                                    else [0xFFFD%N]))
            (seq 0 256) = true) as A by (vm_compute; reflexivity).
  rewrite forallb_forall in A. specialize (A n).
  assert (In n (seq 0 256)) as I by (apply in_seq; lia).
  exact (streq_eq _ _ (A I)).
Qed.

(** Where [codeLength] does give the one length byte. *)
Lemma codeLength_one_byte (s : jsstring) :
  (16 <= length s < 128)%nat ->
  codeLength s = [N.of_nat (length s)]
  /\ utf8_encode (codeLength s) = [u8 (N.of_nat (length s))].
Proof.
  intros H. change (codeLength s) with (codeLength_of (length s)).
  rewrite codeLength_below_256 by lia.
  destruct (Nat.ltb_spec (length s) 16); [lia|].
  destruct (Nat.ltb_spec (length s) 128); [|lia].
  split; [reflexivity|].
  cbn [utf8_encode]. unfold is_high_surrogate, is_low_surrogate, utf8_code_point.
  destruct (N.leb_spec 0xD800 (N.of_nat (length s))); [lia|].
  destruct (N.leb_spec 0xDC00 (N.of_nat (length s))); [lia|].
  cbn [andb]. destruct (N.ltb_spec (N.of_nat (length s)) 0x80); [reflexivity | lia].
Qed.

Lemma codeLength_short (s : jsstring) :
  (length s < 16)%nat -> codeLength s = [].
Proof.
  intros H. change (codeLength s) with (codeLength_of (length s)).
  rewrite codeLength_below_256 by lia.
  destruct (Nat.ltb_spec (length s) 16); [reflexivity|lia].
Qed.

(** From 128 to 255 characters the prefix reaches the buffer as the three
    bytes of U+FFFD. *)
Lemma codeLength_high (s : jsstring) :
  (128 <= length s < 256)%nat ->
  utf8_encode (codeLength s) = [xef; xbf; xbd].
Proof.
  intros H. change (codeLength s) with (codeLength_of (length s)).
  rewrite codeLength_below_256 by lia.
  destruct (Nat.ltb_spec (length s) 16); [lia|].
  destruct (Nat.ltb_spec (length s) 128); [lia|reflexivity].
Qed.

End UtilsFacts.

(** ** The buffer discipline of the builder *)

Section BuilderFacts.

Context {env : Env}.

Lemma only_appends_refl (p : Printer) : only_appends p p.
Proof. split; [exists []; now rewrite app_nil_r | reflexivity]. Qed.

Lemma only_appends_trans (p q r : Printer) :
  only_appends p q -> only_appends q r -> only_appends p r.
Proof.
  intros [[b1 H1] A1] [[b2 H2] A2]. split; [|congruence].
  exists (b1 ++ b2). now rewrite H2, H1, app_assoc.
Qed.

Lemma only_appends_emit (bytes : list byte) (p : Printer) :
  only_appends p (emit bytes p).
Proof. split; [now exists bytes | reflexivity]. Qed.

Lemma only_appends_set_width (w : Z) (p : Printer) :
  only_appends p (set_width w p).
Proof. split; [exists []; simpl; now rewrite app_nil_r | reflexivity]. Qed.

Lemma quiet_Ok (p q : Printer) : only_appends p q -> quiet p (Ok q).
Proof. intros H. split; [exact H | exact I]. Qed.

Lemma quiet_here (p : Printer) : quiet p (Ok p).
Proof. apply quiet_Ok, only_appends_refl. Qed.

Lemma quiet_Throw (e : exn) (p : Printer) :
  invalid_argument e = false -> quiet p (Throw e p).
Proof. intros H. split; [apply only_appends_refl | exact H]. Qed.

Lemma quiet_bind (p : Printer) (r : result) (f : Printer -> result) :
  quiet p r -> (forall q, quiet q (f q)) -> quiet p (r >>= f).
Proof.
  intros [Hr Br] Hf. destruct r as [q | e q]; simpl in *.
  - destruct (Hf q) as [Hq Bq]. split; [|exact Bq].
    eapply only_appends_trans; eauto.
  - split; assumption.
Qed.

Lemma quiet_guarded (p : Printer) (r : result) : quiet p r -> guarded p r.
Proof.
  intros [H B]. split; [exact H|]. destruct r as [q | e q]; [exact I|].
  simpl in B. congruence.
Qed.

Lemma quiet_write_bytes (b : list byte) (p : Printer) : quiet p (write_bytes b p).
Proof. apply quiet_Ok, only_appends_emit. Qed.

Lemma quiet_write (s : jsstring) (p : Printer) : quiet p (write s p).
Proof. apply quiet_write_bytes. Qed.

Lemma quiet_write_val (v : jsval) (p : Printer) : quiet p (write_val v p).
Proof. apply quiet_write. Qed.

Lemma quiet_writeUInt8 (v : jsval) (p : Printer) : quiet p (writeUInt8 v p).
Proof.
  unfold writeUInt8. destruct (ToNumber v) as [n|].
  - destruct ((n <? 0) || (255 <? n)).
    + now apply quiet_Throw.
    + apply quiet_Ok, only_appends_emit.
  - apply quiet_Ok, only_appends_emit.
Qed.

Lemma quiet_writeUInt16LE (v : option Z) (p : Printer) : quiet p (writeUInt16LE v p).
Proof.
  unfold writeUInt16LE. destruct v as [n|].
  - destruct ((n <? 0) || (65535 <? n)).
    + now apply quiet_Throw.
    + apply quiet_Ok, only_appends_emit.
  - apply quiet_Ok, only_appends_emit.
Qed.

Lemma quiet_writeUInt16LE_div (a n : Z) (p : Printer) :
  quiet p (writeUInt16LE_div a n p).
Proof.
  unfold writeUInt16LE_div. destruct (65535 * n <? a).
  - now apply quiet_Throw.
  - apply quiet_Ok, only_appends_emit.
Qed.

Create HintDb quiet.

#[local] Hint Resolve quiet_here quiet_write_bytes quiet_write quiet_write_val
  quiet_writeUInt8 quiet_writeUInt16LE quiet_writeUInt16LE_div : quiet.

(** A chain of steps is quiet when each step is; a choice between chains is
    quiet when each branch is. *)
Ltac quiet_steps :=
  repeat first
    [ solve [auto with quiet]
    | apply quiet_bind; [|intro]
    | apply quiet_Throw; reflexivity
    | match goal with
      | |- quiet _ (if ?b then _ else _) => destruct b
      | |- quiet _ (match ?x with _ => _ end) => destruct x
      | |- quiet _ (let (_, _) := ?x in _) => destruct x
      end ].

Lemma quiet_setCharacterCodeTable t p : quiet p (setCharacterCodeTable t p).
Proof. unfold setCharacterCodeTable. quiet_steps. Qed.

Lemma quiet_marginBottom n p : quiet p (marginBottom n p).
Proof. unfold marginBottom. quiet_steps. Qed.

Lemma quiet_marginLeft n p : quiet p (marginLeft n p).
Proof. unfold marginLeft. quiet_steps. Qed.

Lemma quiet_marginRight n p : quiet p (marginRight n p).
Proof. unfold marginRight. quiet_steps. Qed.

Lemma quiet_print c p : quiet p (print c p).
Proof. unfold print. quiet_steps. Qed.

Lemma quiet_println s p : quiet p (println s p).
Proof. unfold println. apply quiet_print. Qed.

Lemma quiet_newLine p : quiet p (newLine p).
Proof. unfold newLine. quiet_steps. Qed.

Lemma quiet_print_encoded s e p : quiet p (print_encoded s e p).
Proof.
  unfold print_encoded. destruct (iconv_encode _ _).
  - apply quiet_print.
  - now apply quiet_Throw.
Qed.

Lemma quiet_text s e p : quiet p (text s e p).
Proof. apply quiet_print_encoded. Qed.

Lemma quiet_pureText s e p : quiet p (pureText s e p).
Proof. apply quiet_print_encoded. Qed.

#[local] Hint Resolve quiet_print quiet_newLine quiet_text : quiet.

Lemma quiet_drawLine p : quiet p (drawLine p).
Proof.
  unfold drawLine, for_lt. apply quiet_bind; [|auto with quiet].
  induction (Z.to_nat (width p)) as [|k IH]; simpl; quiet_steps.
Qed.

Lemma quiet_feed n p : quiet p (feed n p).
Proof. unfold feed. quiet_steps. Qed.

Lemma quiet_control c p : quiet p (control c p).
Proof. unfold control. quiet_steps. Qed.

Lemma quiet_align a p : quiet p (align a p).
Proof. unfold align. quiet_steps. Qed.

Lemma quiet_font f p : quiet p (font f p).
Proof.
  unfold font. apply quiet_bind; [auto with quiet|]. intros q.
  destruct (streq _ _); apply quiet_Ok, only_appends_set_width.
Qed.

Lemma quiet_style3 a b c p : quiet p (style3 a b c p).
Proof. unfold style3. quiet_steps. Qed.

Lemma quiet_style t p : quiet p (style t p).
Proof.
  unfold style.
  repeat match goal with
         | |- quiet _ (if ?b then _ else _) => destruct b
         end; apply quiet_style3.
Qed.

Lemma quiet_size w h p : quiet p (size w h p).
Proof. unfold size. quiet_steps. Qed.

Lemma quiet_spacing n p : quiet p (spacing n p).
Proof. unfold spacing. quiet_steps. Qed.

Lemma quiet_lineSpace n p : quiet p (lineSpace n p).
Proof. unfold lineSpace. quiet_steps. Qed.

Lemma quiet_hardware h p : quiet p (hardware h p).
Proof. unfold hardware. quiet_steps. Qed.

#[local] Hint Resolve quiet_feed quiet_align quiet_size quiet_lineSpace : quiet.

Lemma quiet_barcode_setup t w h pos f p : quiet p (barcode_setup t w h pos f p).
Proof. unfold barcode_setup. quiet_steps. Qed.

Lemma quiet_barcode_mode_off p : quiet p (barcode_mode_off p).
Proof. unfold barcode_mode_off. quiet_steps. Qed.

Lemma quiet_cashdraw n p : quiet p (cashdraw n p).
Proof. unfold cashdraw. quiet_steps. Qed.

Lemma quiet_beep n t p : quiet p (beep n t p).
Proof. unfold beep. quiet_steps. Qed.

Lemma quiet_cut b n p : quiet p (cut b n p).
Proof. unfold cut. quiet_steps. Qed.

Lemma quiet_color c p : quiet p (color c p).
Proof. unfold color. quiet_steps. Qed.

Lemma quiet_setReverseColors b p : quiet p (setReverseColors b p).
Proof. unfold setReverseColors. quiet_steps. Qed.

Lemma quiet_raw d p : quiet p (raw d p).
Proof. unfold raw. quiet_steps. Qed.

Lemma quiet_model m p : quiet p (model m p).
Proof.
  apply quiet_Ok. split; [exists []; simpl; now rewrite app_nil_r | reflexivity].
Qed.

Lemma quiet_encode e p : quiet p (encode e p).
Proof.
  apply quiet_Ok. split; [exists []; simpl; now rewrite app_nil_r | reflexivity].
Qed.

(** The length test of the QSPrinter branch of [qrcode] holds for no length. *)
Lemma code_length_test_false (n : Z) : (n <? 1) && (n >? 2710) = false.
Proof.
  destruct (Z.ltb_spec n 1); [|reflexivity].
  rewrite Z.gtb_ltb. destruct (Z.ltb_spec 2710 n); [lia|reflexivity].
Qed.

Lemma quiet_qrcode c v l s p : quiet p (qrcode c v l s p).
Proof.
  unfold qrcode. destruct (negb (is_qsprinter p)).
  - quiet_steps.
  - destruct (iconv_encode c (js "utf8")) as [dataRaw|]; [|now apply quiet_Throw].
    rewrite code_length_test_false. quiet_steps.
Qed.

Lemma guarded_Throw_here (e : exn) (p : Printer) : guarded p (Throw e p).
Proof. split; [apply only_appends_refl | reflexivity]. Qed.

Lemma guarded_barcode_body c t w h pos f b p :
  guarded p (barcode_body c t w h pos f b p).
Proof.
  unfold barcode_body.
  destruct (_ && _); [apply guarded_Throw_here|].
  destruct (_ && _); [apply guarded_Throw_here|].
  apply quiet_guarded. apply quiet_bind; [apply quiet_bind|].
  - apply quiet_barcode_setup.
  - intro. apply quiet_write.
  - intro. apply quiet_barcode_mode_off.
Qed.

Lemma guarded_barcode c t a2 a3 a4 a5 p : guarded p (barcode c t a2 a3 a4 a5 p).
Proof.
  unfold barcode. destruct a2 as [[| n | s] | o]; apply guarded_barcode_body.
Qed.

Lemma guarded_raster i m p : guarded p (raster i m p).
Proof.
  unfold raster. destruct i as [i|]; [|apply guarded_Throw_here].
  apply quiet_guarded. destruct (toRaster i) as [[data w] h]. quiet_steps.
Qed.

Lemma only_appends_image_band header n (lines : list (list byte)) :
  forall p, only_appends p (fold_left (image_band header n) lines p).
Proof.
  induction lines as [|line lines IH]; intros p; simpl.
  - apply only_appends_refl.
  - eapply only_appends_trans; [|apply IH].
    unfold image_band.
    assert (quiet p (write_val header p >>= writeUInt16LE_div (len_bytes line) n
                     >>= write_bytes line >>= write_val (cmd ["EOL"]))) as [H _]
      by quiet_steps.
    exact H.
Qed.

Lemma guarded_image i d p : guarded p (image i d p).
Proof.
  unfold image. destruct i as [i|]; [|apply guarded_Throw_here].
  apply quiet_guarded. apply quiet_bind; [apply quiet_bind|].
  - apply quiet_lineSpace.
  - intro. apply quiet_Ok, only_appends_image_band.
  - intro. apply quiet_lineSpace.
Qed.

Lemma quiet_table fuel d e p r : table fuel d e p = Some r -> quiet p r.
Proof.
  unfold table. destruct (table_line _ _ _ _); [|discriminate].
  intros [= <-]. destruct (iconv_encode _ _).
  - apply quiet_write_bytes.
  - now apply quiet_Throw.
Qed.

Lemma quiet_tableCustom fuel :
  forall d e p r, tableCustom fuel d e p = Some r -> quiet p r.
Proof.
  induction fuel as [|fuel IH]; intros d e p r; simpl; [discriminate|].
  destruct (custom_row _ _ _ _) as [row|]; [|discriminate].
  destruct (iconv_encode _ _) as [b|].
  - destruct (secondLineEnabled row).
    + intros H. apply IH in H. destruct H as [H B]. split; [|exact B].
      eapply only_appends_trans; [apply only_appends_emit | exact H].
    + intros [= <-]. apply quiet_Ok, only_appends_emit.
  - intros [= <-]. now apply quiet_Throw.
Qed.

Lemma quiet_lineTitle t c p : quiet p (lineTitle t c p).
Proof. unfold lineTitle. quiet_steps. Qed.

Lemma quiet_controlText l r w p : quiet p (controlText l r w p).
Proof. unfold controlText. quiet_steps. Qed.

Lemma quiet_threeColumnLayout t w p : quiet p (threeColumnLayout t w p).
Proof. unfold threeColumnLayout. quiet_steps. Qed.

Lemma quiet_fourColumn_rows th1 th2 th3 w (rows : list Tbody) :
  forall p r, quiet p r ->
    quiet p (fold_left (fourColumn_row th1 th2 th3 w) rows r).
Proof.
  induction rows as [|row rows IH]; intros p r H; simpl; [exact H|].
  apply IH. unfold fourColumn_row. quiet_steps.
Qed.

Lemma quiet_fourColumnLayout h b w p : quiet p (fourColumnLayout h b w p).
Proof.
  unfold fourColumnLayout.
  destruct h as [[|h0 [|h1 [|h2 [|h3 h]]]]|];
    try apply quiet_here; try (now apply quiet_Throw).
  apply quiet_fourColumn_rows, quiet_text.
Qed.

(** Every call appends to the buffer and hands nothing to the adapter; one
    that throws an InvalidArgument error has changed nothing. *)
Lemma call_guarded fuel o p r : call fuel o p = Some r -> guarded p r.
Proof.
  destruct o; simpl;
    try (intros [= <-];
         first [ apply guarded_barcode | apply guarded_raster | apply guarded_image
               | apply quiet_guarded;
                 first [ apply quiet_model | apply quiet_setCharacterCodeTable
                       | apply quiet_marginBottom | apply quiet_marginLeft
                       | apply quiet_marginRight | apply quiet_print
                       | apply quiet_println | apply quiet_newLine
                       | apply quiet_text | apply quiet_drawLine
                       | apply quiet_pureText | apply quiet_encode
                       | apply quiet_feed | apply quiet_control
                       | apply quiet_align | apply quiet_font
                       | apply quiet_style | apply quiet_size
                       | apply quiet_spacing | apply quiet_lineSpace
                       | apply quiet_hardware | apply quiet_qrcode
                       | apply quiet_cashdraw | apply quiet_beep
                       | apply quiet_cut | apply quiet_color
                       | apply quiet_setReverseColors | apply quiet_raw
                       | apply quiet_lineTitle | apply quiet_controlText
                       | apply quiet_threeColumnLayout
                       | apply quiet_fourColumnLayout ] ]).
  - intros H. eapply quiet_guarded, quiet_table; eauto.
  - intros H. eapply quiet_guarded, quiet_tableCustom; eauto.
Qed.

Lemma flush_hands_over (p : Printer) :
  flush p
  = Ok {| adapter := adapter p ++ [buffer p]; options := options p; buffer := [];
          encoding := encoding p; width := width p; _model := _model p |}.
Proof. reflexivity. Qed.


Lemma skipn_length_app {A} (a b : list A) : skipn (length a) (a ++ b) = b.
Proof. induction a as [|x a IH]; [reflexivity | exact IH]. Qed.

(** What a call appended is what the buffer holds beyond its old contents. *)
Lemma call_appends fuel o p r :
  call fuel o p = Some r ->
  buffer (state_of r)
  = buffer p ++ skipn (length (buffer p)) (buffer (state_of r))
  /\ adapter (state_of r) = adapter p.
Proof.
  intros H. apply call_guarded in H as [[[b Hb] Ha] _]. split; [|exact Ha].
  rewrite Hb at 2. now rewrite skipn_length_app.
Qed.

Lemma calls_appended fuel (os : list op) :
  forall p q, calls fuel os p = Some q ->
    buffer q = buffer p ++ concat (appended fuel os p) /\ adapter q = adapter p.
Proof.
  induction os as [|o os IH]; intros p q; simpl.
  - intros [= <-]. now rewrite app_nil_r.
  - destruct (call fuel o p) as [r|] eqn:E; [|discriminate].
    intros H. destruct (call_appends _ _ _ _ E) as [Hb Ha].
    destruct (IH _ _ H) as [Hq Hqa]. split; [|congruence].
    simpl. rewrite Hq, Hb at 1. now rewrite <- app_assoc.
Qed.

Lemma calls_each fuel (os : list op) :
  forall p q, calls fuel os p = Some q ->
  forall k o, nth_error os k = Some o ->
    exists pk r,
      calls fuel (firstn k os) p = Some pk
      /\ call fuel o pk = Some r
      /\ buffer (state_of r) = buffer pk ++ nth k (appended fuel os p) []
      /\ adapter (state_of r) = adapter pk.
Proof.
  induction os as [|o os IH]; intros p q H k o' Hk.
  - destruct k; discriminate.
  - simpl in H. destruct (call fuel o p) as [r|] eqn:E; [|discriminate].
    destruct k as [|k]; simpl in Hk.
    + injection Hk as <-. exists p, r. simpl. rewrite E. simpl.
      destruct (call_appends _ _ _ _ E) as [Hb Ha]. auto.
    + destruct (IH _ _ H _ _ Hk) as (pk & rk & H1 & H2 & H3 & H4).
      exists pk, rk. simpl. rewrite E. simpl. auto.
Qed.


End BuilderFacts.



(** ** Barcodes *)

Section BarcodeFacts.

Context {env : Env}.

Lemma utf8_encode_cons (c : char) (rest : jsstring) :
  utf8_encode (c :: rest)
  = if is_high_surrogate c then
      match rest with
      | d :: rest' =>
          if is_low_surrogate d
          then utf8_code_point (0x10000 + (c - 0xD800) * 1024 + (d - 0xDC00))%N
                 ++ utf8_encode rest'
          else replacement ++ utf8_encode rest
      | [] => replacement
      end
    else if is_low_surrogate c then replacement ++ utf8_encode rest
    else utf8_code_point c ++ utf8_encode rest.
Proof. reflexivity. Qed.

(** Encoding splits at any point that does not part a surrogate pair. *)
Lemma utf8_encode_app_le (n : nat) :
  forall s t : jsstring,
    (length s <= n)%nat ->
    is_low_surrogate (hd 0%N t) = false ->
    utf8_encode (s ++ t) = utf8_encode s ++ utf8_encode t.
Proof.
  induction n as [|n IH]; intros s t Hn Ht.
  - destruct s; [reflexivity | simpl in Hn; lia].
  - destruct s as [|c s]; [reflexivity|].
    simpl in Hn. cbn [app]. rewrite !utf8_encode_cons.
    destruct (is_high_surrogate c).
    + destruct s as [|d s]; cbn [app].
      * destruct t as [|d t]; [reflexivity|].
        simpl in Ht. rewrite Ht. reflexivity.
      * destruct (is_low_surrogate d).
        -- rewrite <- app_assoc. f_equal. apply IH; [simpl in Hn; lia | exact Ht].
        -- rewrite <- app_assoc. f_equal.
           apply (IH (d :: s) t); [lia | exact Ht].
    + destruct (is_low_surrogate c); rewrite <- app_assoc; f_equal;
        apply IH; try lia; exact Ht.
Qed.

Lemma utf8_encode_app (s t : jsstring) :
  is_low_surrogate (hd 0%N t) = false ->
  utf8_encode (s ++ t) = utf8_encode s ++ utf8_encode t.
Proof. apply (utf8_encode_app_le (length s)). lia. Qed.

Lemma parity_loop_nonneg (l : jsstring) :
  forall counter parity v,
    0 <= counter -> 0 <= parity ->
    parity_loop l counter (Some parity) = Some v -> 0 <= v.
Proof.
  induction l as [|c l IH]; simpl; intros counter parity v Hc Hp.
  - intros [= <-]. exact Hp.
  - unfold parseInt10. destruct ((48 <=? c) && (c <=? 57))%N eqn:E.
    + apply IH; [lia|]. rewrite pow_rem_weight by lia.
      apply andb_true_iff in E as [E1 E2]. apply N.leb_le in E1.
      unfold weight. destruct (Z.odd (counter + 1)); lia.
    + clear. intros H. exfalso. revert H. generalize (counter + 1).
      induction l as [|d l IH]; simpl; [discriminate|].
      intros z. destruct (parseInt10 d); apply IH.
Qed.

(** The check digit is a digit or the text [NaN]: it starts with an ASCII
    character in either case. *)
Lemma getParityBit_head (code : jsstring) :
  is_low_surrogate (hd 0%N (getParityBit code)) = false.
Proof.
  unfold getParityBit.
  destruct (parity_loop (rev code) 0 (Some 0)) as [v|] eqn:E; [|reflexivity].
  apply parity_loop_nonneg in E; try lia.
  assert (0 <= Z.rem (10 - Z.rem v 10) 10 <= 9) as H.
  { pose proof (Z.mod_pos_bound v 10). rewrite (Z.rem_mod_nonneg v 10) by lia.
    rewrite Z.rem_mod_nonneg by lia.
    pose proof (Z.mod_pos_bound (10 - v mod 10) 10). lia. }
  rewrite (decimal_digit _ H). cbn [hd]. unfold is_low_surrogate.
  apply andb_false_iff. left. apply N.leb_gt. lia.
Qed.

(** The bytes of the frame of an EAN code written with its check digit. *)
Lemma utf8_encode_frame (code : jsstring) :
  utf8_encode (code ++ getParityBit code ++ [0%N])
  = utf8_encode code ++ utf8_encode (getParityBit code) ++ [x00].
Proof.
  rewrite utf8_encode_app.
  - f_equal. now rewrite utf8_encode_app.
  - destruct (getParityBit code) eqn:E; [reflexivity|].
    rewrite <- E. cbn [app].
    pose proof (getParityBit_head code) as H. rewrite E in *. exact H.
Qed.

Lemma emit_emit (a b : list byte) (p : Printer) :
  emit b (emit a p) = emit (a ++ b) p.
Proof. unfold emit. simpl. now rewrite app_assoc. Qed.

Lemma emit_nil (p : Printer) : emit [] p = p.
Proof. destruct p. unfold emit. simpl. now rewrite app_nil_r. Qed.

(** A step that returns, having appended. *)
Lemma returns_bind (p : Printer) (r : result) (f : Printer -> result) :
  (exists a, r = Ok (emit a p)) ->
  (forall q, exists b, f q = Ok (emit b q)) ->
  exists c, r >>= f = Ok (emit c p).
Proof.
  intros [a ->] Hf. destruct (Hf (emit a p)) as [b Hb].
  exists (a ++ b). simpl. now rewrite Hb, emit_emit.
Qed.

Lemma returns_here (p : Printer) : exists a, Ok p = Ok (emit a p).
Proof. exists []. now rewrite emit_nil. Qed.

Lemma returns_write_val (v : jsval) (p : Printer) :
  exists a, write_val v p = Ok (emit a p).
Proof. now exists (utf8_encode (ToString v)). Qed.

Ltac returns_steps :=
  repeat first
    [ apply returns_here
    | apply returns_write_val
    | apply returns_bind; [|intro]
    | match goal with
      | |- exists _, (if ?b then _ else _) = _ => destruct b
      end ].

Lemma barcode_setup_returns t w h pos f p :
  exists a, barcode_setup t w h pos f p = Ok (emit a p).
Proof. unfold barcode_setup. returns_steps. Qed.

Lemma barcode_mode_off_returns p :
  exists a, barcode_mode_off p = Ok (emit a p).
Proof. unfold barcode_mode_off. returns_steps. Qed.

(** [barcode] for the type EAN13, with [includeParity] as read from the
    arguments. *)
Lemma barcode_body_EAN13 code w h pos f (b : bool) p :
  barcode_body code (Some (js "EAN13")) w h pos f b p
  = if len code =? 12
    then barcode_setup (js "EAN13") w h pos f p
         >>= write (code ++ (if b then getParityBit code else []) ++ [0%N])
         >>= barcode_mode_off
    else Throw EAN13_length p.
Proof.
  unfold barcode_body. change (str_or (Some (js "EAN13")) (js "EAN13")) with (js "EAN13").
  change (streq (js "EAN13") (js "EAN13")) with true.
  change (streq (js "EAN13") (js "EAN8")) with false.
  cbn [andb negb]. destruct (len code =? 12); [|reflexivity].
  unfold barcode_frame.
  change (streq (js "EAN13") (js "EAN13")) with true.
  change (streq (js "EAN13") (js "CODE128")) with false.
  change (streq (js "EAN13") (js "CODE93")) with false.
  destruct b; reflexivity.
Qed.

Lemma barcode_body_EAN8 code w h pos f (b : bool) p :
  barcode_body code (Some (js "EAN8")) w h pos f b p
  = if len code =? 7
    then barcode_setup (js "EAN8") w h pos f p
         >>= write (code ++ (if b then getParityBit code else []) ++ [0%N])
         >>= barcode_mode_off
    else Throw EAN8_length p.
Proof.
  unfold barcode_body. change (str_or (Some (js "EAN8")) (js "EAN13")) with (js "EAN8").
  change (streq (js "EAN8") (js "EAN13")) with false.
  change (streq (js "EAN8") (js "EAN8")) with true.
  cbn [andb negb]. destruct (len code =? 7); [|reflexivity].
  unfold barcode_frame.
  change (streq (js "EAN8") (js "EAN13")) with false.
  change (streq (js "EAN8") (js "EAN8")) with true.
  change (streq (js "EAN8") (js "CODE128")) with false.
  change (streq (js "EAN8") (js "CODE93")) with false.
  destruct b; reflexivity.
Qed.

(** The steps of a barcode whose length was accepted, all of which return. *)
Lemma barcode_steps_return t w h pos f frame p :
  exists q q',
    barcode_setup t w h pos f p = Ok q
    /\ barcode_mode_off (emit (utf8_encode frame) q) = Ok q'
    /\ barcode_setup t w h pos f p >>= write frame >>= barcode_mode_off = Ok q'.
Proof.
  destruct (barcode_setup_returns t w h pos f p) as [a Ha].
  destruct (barcode_mode_off_returns (emit (utf8_encode frame) (emit a p))) as [b Hb].
  exists (emit a p), (emit b (emit (utf8_encode frame) (emit a p))).
  rewrite Ha. simpl. auto.
Qed.

Lemma len_is (s : jsstring) (n : nat) :
  (len s =? Z.of_nat n) = (length s =? n)%nat.
Proof.
  unfold len. destruct (Nat.eqb_spec (length s) n) as [E | E].
  - rewrite E. apply Z.eqb_refl.
  - apply Z.eqb_neq. lia.
Qed.

Lemma barcode_any_convention code t a a3 a4 a5 p :
  exists w h pos f b,
    barcode code t a a3 a4 a5 p = barcode_body code t w h pos f b p.
Proof.
  destruct a as [[| n | s] | o]; simpl; repeat eexists.
Qed.

(** An EAN13 code of 12 characters written with its check digit. *)
Lemma barcode_body_EAN13_frame code w h pos f p :
  length code = 12%nat ->
  exists q q',
    barcode_setup (js "EAN13") w h pos f p = Ok q
    /\ barcode_mode_off
         (emit (utf8_encode code ++ utf8_encode (getParityBit code) ++ [x00]) q)
       = Ok q'
    /\ barcode_body code (Some (js "EAN13")) w h pos f true p = Ok q'.
Proof.
  intros Hn. rewrite barcode_body_EAN13. change 12 with (Z.of_nat 12).
  rewrite len_is, Hn, Nat.eqb_refl.
  destruct (barcode_steps_return (js "EAN13") w h pos f
              (code ++ getParityBit code ++ [0%N]) p)
    as (q & q' & H1 & H2 & H3).
  exists q, q'. rewrite utf8_encode_frame in H2. auto.
Qed.

(** C2. [barcode(code, "EAN13", ...)] fails if and only if the length of
    [code] is not 12, and then with the error 'EAN13 Barcode type requires
    code length 12', before anything is written.  When the length is 12 and
    the options convention is used with [includeParity] not set to [false]
    (no third argument, or an options object), the call returns, and the
    bytes it appends after the format commands and before the closing
    barcode-mode command are those of [code], then of [getParityBit code],
    then the byte 0x00. *)
Theorem barcode_EAN13_length_and_frame
    (code : jsstring) (a : barcode_arg) (a3 : jsval) (a4 a5 : option jsstring)
    (p : Printer) :
  ((exists e q, barcode code (Some (js "EAN13")) a a3 a4 a5 p = Throw e q)
   <-> length code <> 12%nat)
  /\ (length code <> 12%nat ->
      barcode code (Some (js "EAN13")) a a3 a4 a5 p = Throw EAN13_length p)
  /\ (length code = 12%nat ->
      exists q q',
        barcode_setup (js "EAN13") undefined undefined None None p = Ok q
        /\ barcode_mode_off
             (emit (utf8_encode code ++ utf8_encode (getParityBit code) ++ [x00]) q)
           = Ok q'
        /\ barcode code (Some (js "EAN13")) (Value undefined) a3 a4 a5 p = Ok q')
  /\ (length code = 12%nat ->
      forall o : BarcodeOptions, bo_includeParity o <> Some false ->
      exists q q',
        barcode_setup (js "EAN13") (bo_width o) (bo_height o) (bo_position o)
          (bo_font o) p = Ok q
        /\ barcode_mode_off
             (emit (utf8_encode code ++ utf8_encode (getParityBit code) ++ [x00]) q)
           = Ok q'
        /\ barcode code (Some (js "EAN13")) (OptionsObject o) a3 a4 a5 p = Ok q').
Proof.
  assert (length code <> 12%nat ->
          barcode code (Some (js "EAN13")) a a3 a4 a5 p = Throw EAN13_length p) as Hbad.
  { intros Hn. destruct (barcode_any_convention code (Some (js "EAN13")) a a3 a4 a5 p)
      as (w & h & pos & f & b & ->).
    rewrite barcode_body_EAN13. change 12 with (Z.of_nat 12). rewrite len_is.
    now destruct (Nat.eqb_spec (length code) 12). }
  split; [|split; [exact Hbad|split]].
  - split; [|intros Hn; rewrite (Hbad Hn); eauto].
    intros (e & q & H) Hn.
    destruct (barcode_any_convention code (Some (js "EAN13")) a a3 a4 a5 p)
      as (w & h & pos & f & b & E).
    rewrite E, barcode_body_EAN13 in H. change 12 with (Z.of_nat 12) in H.
    rewrite len_is, Hn, Nat.eqb_refl in H.
    destruct (barcode_steps_return (js "EAN13") w h pos f
                (code ++ (if b then getParityBit code else []) ++ [0%N]) p)
      as (q1 & q2 & _ & _ & H2).
    rewrite H2 in H. discriminate.
  - intros Hn. apply (barcode_body_EAN13_frame code undefined undefined None None p Hn).
  - intros Hn o Ho.
    destruct (barcode_body_EAN13_frame code (bo_width o) (bo_height o)
                (bo_position o) (bo_font o) p Hn) as (q & q' & H1 & H2 & H3).
    exists q, q'. split; [exact H1|]. split; [exact H2|].
    rewrite <- H3. simpl. destruct (bo_includeParity o) as [[|]|]; congruence.
Qed.

(** [barcode] for the type CODE128 and a code shorter than 16 characters:
    the frame is the code and 0x00. *)
Lemma barcode_CODE128_short code a a3 a4 a5 p :
  (length code < 16)%nat ->
  exists w h pos f,
    barcode code (Some (js "CODE128")) a a3 a4 a5 p
    = barcode_setup (js "CODE128") w h pos f p
      >>= write (code ++ [0%N]) >>= barcode_mode_off.
Proof.
  intros H.
  destruct (barcode_any_convention code (Some (js "CODE128")) a a3 a4 a5 p)
    as (w & h & pos & f & b & ->).
  exists w, h, pos, f. unfold barcode_body, barcode_frame.
  change (str_or (Some (js "CODE128")) (js "EAN13")) with (js "CODE128").
  change (streq (js "CODE128") (js "EAN13")) with false.
  change (streq (js "CODE128") (js "EAN8")) with false.
  change (streq (js "CODE128") (js "CODE128")) with true.
  rewrite (codeLength_short code H). destruct b; reflexivity.
Qed.

(** C9. When the third argument of [barcode] is a number or a string (the
    positional convention), [includeParity] is never set: the frame is the
    length prefix (for CODE128 and CODE93 only), the code and the byte 0x00,
    with no check digit, whatever the type.  For an EAN13 code of 12
    characters and an EAN8 code of 7 the bytes appended after the format
    commands are those of the code and 0x00 alone, where the options
    convention adds [getParityBit code] between them. *)
Theorem barcode_positional_has_no_check_digit
    (code : jsstring) (type : option jsstring) (v a3 : jsval)
    (a4 a5 : option jsstring) (p : Printer) :
  v <> undefined ->
  (barcode code type (Value v) a3 a4 a5 p
   = if streq (str_or type (js "EAN13")) (js "EAN13") && negb (len code =? 12)
     then Throw EAN13_length p
     else if streq (str_or type (js "EAN13")) (js "EAN8") && negb (len code =? 7)
     then Throw EAN8_length p
     else
       barcode_setup (str_or type (js "EAN13")) v a3 a4 a5 p
       >>= write ((if streq (str_or type (js "EAN13")) (js "CODE128")
                      || streq (str_or type (js "EAN13")) (js "CODE93")
                   then codeLength code else [])
                  ++ code ++ [0%N])
       >>= barcode_mode_off)
  /\ (length code = 12%nat ->
      exists q q',
        barcode_setup (js "EAN13") v a3 a4 a5 p = Ok q
        /\ barcode_mode_off (emit (utf8_encode code ++ [x00]) q) = Ok q'
        /\ barcode code (Some (js "EAN13")) (Value v) a3 a4 a5 p = Ok q')
  /\ (length code = 7%nat ->
      exists q q',
        barcode_setup (js "EAN8") v a3 a4 a5 p = Ok q
        /\ barcode_mode_off (emit (utf8_encode code ++ [x00]) q) = Ok q'
        /\ barcode code (Some (js "EAN8")) (Value v) a3 a4 a5 p = Ok q').
Proof.
  intros Hv.
  assert (forall t, barcode code t (Value v) a3 a4 a5 p
                    = barcode_body code t v a3 a4 a5 false p) as E.
  { intros t. destruct v; [congruence | reflexivity | reflexivity]. }
  split; [|split].
  - rewrite E. unfold barcode_body, barcode_frame. cbn [andb app]. reflexivity.
  - intros Hn. rewrite E, barcode_body_EAN13.
    change 12 with (Z.of_nat 12). rewrite len_is, Hn, Nat.eqb_refl.
    destruct (barcode_steps_return (js "EAN13") v a3 a4 a5 (code ++ [] ++ [0%N]) p)
      as (q & q' & H1 & H2 & H3).
    exists q, q'. cbn [app] in H2. rewrite utf8_encode_app in H2 by reflexivity.
    auto.
  - intros Hn. rewrite E, barcode_body_EAN8.
    change 7 with (Z.of_nat 7). rewrite len_is, Hn, Nat.eqb_refl.
    destruct (barcode_steps_return (js "EAN8") v a3 a4 a5 (code ++ [] ++ [0%N]) p)
      as (q & q' & H1 & H2 & H3).
    exists q, q'. cbn [app] in H2. rewrite utf8_encode_app in H2 by reflexivity.
    auto.
Qed.

End BarcodeFacts.

(** [barcode("12345678901", "EAN13")] fails and [barcode("123456789012",
    "EAN13")] frames the code with its check digit 8. *)
Lemma barcode_EAN13_length_and_frame_witness :
  @barcode Sample.env (js "12345678901") (Some (js "EAN13")) (Value undefined)
    undefined None None Sample.printer
  = Throw EAN13_length Sample.printer
  /\ exists q,
       @barcode Sample.env (js "123456789012") (Some (js "EAN13")) (Value undefined)
         undefined None None Sample.printer = Ok q
       /\ buffer q
          = [x1d; x77; x01; x1d; x68; x64; x1d; x66; x00; x1d; x48; x02; x1d; x6b; x02]
            ++ [x31; x32; x33; x34; x35; x36; x37; x38; x39; x30; x31; x32]
            ++ [x38] ++ [x00].
Proof.
  split.
  - apply (@barcode_EAN13_length_and_frame Sample.env (js "12345678901")
             (Value undefined) undefined None None Sample.printer).
    vm_compute. discriminate.
  - destruct (@barcode_EAN13_length_and_frame Sample.env (js "123456789012")
                (Value undefined) undefined None None Sample.printer)
      as (_ & _ & H & _).
    destruct (H eq_refl) as (q & q' & _ & _ & H3).
    exists q'. split; [exact H3|].
    vm_compute in H3. injection H3 as <-. reflexivity.
Defined.

(** The positional call [barcode("123456789012", "EAN13", 2, 50)]: the twelve
    characters and the terminator, no check digit. *)
Lemma barcode_positional_has_no_check_digit_witness :
  exists q,
    @barcode Sample.env (js "123456789012") (Some (js "EAN13")) (Value (JNum 2))
      (JNum 50) None None Sample.printer = Ok q
    /\ buffer q
       = [x1d; x77; x03; x1d; x68; x32; x1d; x66; x00; x1d; x48; x02; x1d; x6b; x02]
         ++ [x31; x32; x33; x34; x35; x36; x37; x38; x39; x30; x31; x32]
         ++ [x00].
Proof.
  assert (JNum 2 <> undefined) as Hv by discriminate.
  destruct (@barcode_positional_has_no_check_digit Sample.env (js "123456789012")
              (Some (js "EAN13")) (JNum 2) (JNum 50) None None Sample.printer Hv)
    as (_ & H & _).
  destruct (H eq_refl) as (q & q' & _ & _ & H3).
  exists q'. split; [exact H3|].
  vm_compute in H3. injection H3 as <-. reflexivity.
Defined.

(** C3, at a code of five characters.  [codeLength] returns the empty
    string for it, as for every code shorter than 16 characters (the
    hexadecimal form of the length is a single digit, which
    [Buffer.from(..., 'hex')] drops), so the CODE128 frame of such a code is
    the code and 0x00, with no length byte before it. *)
Theorem codeLength_of_short_code_is_empty :
  codeLength (js "12345") = []
  /\ (forall s : jsstring, (length s < 16)%nat -> codeLength s = [])
  /\ (forall (env : Env) code a a3 a4 a5 p,
        (length code < 16)%nat ->
        exists w h pos f,
          barcode code (Some (js "CODE128")) a a3 a4 a5 p
          = barcode_setup (js "CODE128") w h pos f p
            >>= write (code ++ [0%N]) >>= barcode_mode_off)
  /\ buffer (state_of (@barcode Sample.env (js "12345") (Some (js "CODE128"))
                         (Value undefined) undefined None None Sample.printer))
     = [x1d; x77; x01; x1d; x68; x64; x1d; x66; x00; x1d; x48; x02; x1d; x6b; x49]
       ++ [x31; x32; x33; x34; x35] ++ [x00].
Proof.
  split; [reflexivity|]. split; [exact codeLength_short|].
  split; [|reflexivity].
  intros env code a a3 a4 a5 p H. now apply barcode_CODE128_short.
Qed.

(** ** QR codes *)

(** The QSPrinter branch of [qrcode] for a code transcoded to [dataRaw]:
    the three phases, with no test of the length left. *)
Lemma qrcode_qsprinter_steps {env : Env} code version level size p dataRaw :
  is_qsprinter p = true ->
  iconv_encode code (js "utf8") = Some dataRaw ->
  qrcode code version level size p
  = let q (k : list string) := cmd (["MODEL"; "QSPRINTER"; "CODE2D_FORMAT"] ++ k) in
    write_val (q ["PIXEL_SIZE"; "CMD"]) p
    >>= writeUInt8 (qs_bounded size "PIXEL_SIZE")
    >>= write_val (q ["VERSION"; "CMD"])
    >>= writeUInt8 (qs_bounded version "VERSION")
    >>= write_val (q ["LEVEL"; "CMD"])
    >>= (fun p =>
      match
        match level with
        | JStr (c :: s) => JStr (c :: s)
        | _ => cmd ["CODE2D_FORMAT"; "QR_LEVEL_L"]
        end
      with
      | JStr l =>
          write_val (cmd_at ["MODEL"; "QSPRINTER"; "CODE2D_FORMAT"; "LEVEL"; "OPTIONS"]
                       (toUpperCase l)) p
      | _ => Throw not_a_function p
      end)
    >>= write_val (q ["SAVEBUF"; "CMD_P1"])
    >>= writeUInt16LE (plus_len_offset (len_bytes dataRaw))
    >>= write_val (q ["SAVEBUF"; "CMD_P2"])
    >>= write_bytes dataRaw
    >>= write_val (q ["PRINTBUF"; "CMD_P1"])
    >>= writeUInt16LE (plus_len_offset (len_bytes dataRaw))
    >>= write_val (q ["PRINTBUF"; "CMD_P2"]).
Proof.
  intros Hq Hd. unfold qrcode. rewrite Hq, Hd. cbn [negb].
  rewrite code_length_test_false. reflexivity.
Qed.

(** C1, at the empty code and at one of 2711 bytes.  On a builder whose model
    is 'qsprinter', [qrcode] tests the byte length [n] with
    [n < 1 && n > 2710], which no length satisfies: it throws the error
    'Invalid code length in byte. Must be between 1 and 2710' for no code,
    and runs the three phases for the empty code and for a code of 2711
    bytes as it does for one of 1 or 2710 bytes. *)
Theorem qrcode_qsprinter_never_checks_length :
  (forall (env : Env) code version level size p e q,
      qrcode code version level size p = Throw e q -> e <> code_length)
  /\ @qrcode Sample.env [] undefined undefined undefined Sample.qsprinter
     = Ok (emit ([x1b; x23; x23; x51; x50; x49; x58; x0c]
                 ++ [x1d; x28; x6b; x03; x00; x31; x43; x03]
                 ++ [x1d; x28; x6b; x03; x00; x31; x45; x30]
                 ++ [x1d; x28; x6b; x03; x00; x31; x50; x30]
                 ++ [x1d; x28; x6b; x03; x00; x31; x51; x30]) Sample.qsprinter)
  /\ (forall n, In n [1; 2710; 2711]%nat ->
        exists q,
          @qrcode Sample.env (repeat 97%N n) undefined undefined undefined
            Sample.qsprinter = Ok q
          /\ length (buffer q) = (40 + n)%nat).
Proof.
  split; [|split].
  - intros env code version level size p e q H ->.
    destruct (quiet_qrcode code version level size p) as [_ B].
    rewrite H in B. discriminate B.
  - reflexivity.
  - intros n [<- | [<- | [<- | []]]]; eexists; split;
      try (vm_compute; reflexivity).
Qed.

(** ** Tables *)

Section TableFacts.

Context {env : Env}.

Lemma tableCustom_S (fuel : nat) (data : list Cell) (enc : option jsstring)
    (p : Printer) :
  tableCustom (S fuel) data enc p
  = match custom_row fuel (width p) (row_start (width p) data) data with
    | None => None
    | Some r =>
        match iconv_encode (lineStr r ++ EOL) (str_or enc (encoding p)) with
        | None => Some (Throw not_recognized p)
        | Some b =>
            if secondLineEnabled r
            then tableCustom fuel (secondLine r) None (emit b p)
            else Some (Ok (emit b p))
        end
    end.
Proof. reflexivity. Qed.

(** C10. When the first line of [tableCustom(data, encoding)] has a cell that
    is too long, the line is written in [encoding] (the session's encoding if
    none is passed) and the call goes on as [tableCustom(secondLine)], with
    no encoding argument: the continuation line is written in the session's
    encoding, whatever [encoding] was. *)
Theorem tableCustom_continuation_uses_session_encoding
    (fuel : nat) (data : list Cell) (enc : option jsstring) (p : Printer)
    (r1 r2 : row) (b1 b2 : list byte) :
  custom_row (S fuel) (width p) (row_start (width p) data) data = Some r1 ->
  secondLineEnabled r1 = true ->
  iconv_encode (lineStr r1 ++ EOL) (str_or enc (encoding p)) = Some b1 ->
  custom_row fuel (width p) (row_start (width p) (secondLine r1)) (secondLine r1)
  = Some r2 ->
  iconv_encode (lineStr r2 ++ EOL) (encoding p) = Some b2 ->
  tableCustom (S (S fuel)) data enc p
  = tableCustom (S fuel) (secondLine r1) None (emit b1 p)
  /\ tableCustom (S (S fuel)) data enc p
     = if secondLineEnabled r2
       then tableCustom fuel (secondLine r2) None (emit (b1 ++ b2) p)
       else Some (Ok (emit (b1 ++ b2) p)).
Proof.
  intros H1 E1 I1 H2 I2.
  assert (tableCustom (S (S fuel)) data enc p
          = tableCustom (S fuel) (secondLine r1) None (emit b1 p)) as Step.
  { rewrite (tableCustom_S (S fuel)), H1, I1, E1. reflexivity. }
  split; [exact Step|].
  rewrite Step, tableCustom_S.
  change (width (emit b1 p)) with (width p).
  change (str_or None (encoding (emit b1 p))) with (encoding p).
  rewrite H2, I2, emit_emit. reflexivity.
Qed.

End TableFacts.

(** One cell of twelve characters in five columns, the first line asked for in
    UTF-16 on a builder whose encoding is UTF-8: the two continuation lines
    come out in UTF-8. *)
Lemma tableCustom_continuation_uses_session_encoding_witness :
  let data :=
    [ {| c_text := js "abcdefghijkl"; c_width := None; c_cols := Some 5%float;
         c_align := None; c_originalText := None |} ] in
  exists q,
    @tableCustom Sample.env 10 data (Some (js "utf16le")) Sample.printer = Some (Ok q)
    /\ buffer q
       = [x61; x00; x62; x00; x63; x00; x64; x00; x20; x00; x0a; x00]
         ++ [x65; x66; x67; x68; x20; x0a]
         ++ [x69; x6a; x6b; x6c; x20; x0a].
Proof.
  intros data.
  let o := eval vm_compute in
            (custom_row 9 (width Sample.printer)
               (row_start (width Sample.printer) data) data) in
  match o with Some ?r => pose (r1 := r) end.
  assert (custom_row 9 (width Sample.printer)
            (row_start (width Sample.printer) data) data = Some r1) as H1
    by (vm_compute; reflexivity).
  let o := eval vm_compute in
            (@iconv_encode Sample.env (lineStr r1 ++ @EOL Sample.env)
               (str_or (Some (js "utf16le")) (encoding Sample.printer))) in
  match o with Some ?b => pose (b1 := b) end.
  let o := eval vm_compute in
            (custom_row 8 (width Sample.printer)
               (row_start (width Sample.printer) (secondLine r1)) (secondLine r1)) in
  match o with Some ?r => pose (r2 := r) end.
  let o := eval vm_compute in
            (@iconv_encode Sample.env (lineStr r2 ++ @EOL Sample.env)
               (encoding Sample.printer)) in
  match o with Some ?b => pose (b2 := b) end.
  destruct (@tableCustom_continuation_uses_session_encoding Sample.env 8 data
              (Some (js "utf16le")) Sample.printer r1 r2 b1 b2 H1)
    as [_ H]; try (vm_compute; reflexivity).
  vm_compute in H.
  eexists. split; [exact H | reflexivity].
Defined.

(** ** Instances of the layout properties *)

(** An ASCII string, a string of three CJK characters, and a mixed one. *)
Lemma bytesLength_sum_of_widths_witness :
  bytesLength (js "abc") = 3
  /\ bytesLength [0x4E2D; 0x6587; 0x5B57]%N = 6
  /\ bytesLength [0x41; 0xE9; 0x4E2D]%N = 4.
Proof.
  destruct (bytesLength_sum_of_widths (js "abc")) as (_ & H1 & _).
  destruct (bytesLength_sum_of_widths [0x4E2D; 0x6587; 0x5B57]%N) as (_ & _ & H2).
  destruct (bytesLength_sum_of_widths [0x41; 0xE9; 0x4E2D]%N) as (H3 & _).
  split; [exact (H1 eq_refl)|]. split; [exact (H2 eq_refl) | exact H3].
Defined.

(** Two columns in a width of 10, and in a width too small for them. *)
Lemma spaceText_pads_to_width_witness :
  spaceText (js "ab") [0x4E2D; 0x6587]%N 10 = js "ab" ++ js "    " ++ [0x4E2D; 0x6587]%N
  /\ bytesLength (spaceText (js "ab") [0x4E2D; 0x6587]%N 10) = 10
  /\ spaceText (js "ab") [0x4E2D; 0x6587]%N 5 = js "ab" ++ [0x4E2D; 0x6587]%N.
Proof.
  destruct (spaceText_pads_to_width (js "ab") [0x4E2D; 0x6587]%N 10) as [H _].
  destruct (spaceText_pads_to_width (js "ab") [0x4E2D; 0x6587]%N 5) as [_ H'].
  assert (bytesLength (js "ab") + bytesLength [0x4E2D; 0x6587]%N <= 10) as L
    by (vm_compute; discriminate).
  assert (5 < bytesLength (js "ab") + bytesLength [0x4E2D; 0x6587]%N) as S
    by (vm_compute; reflexivity).
  destruct (H L) as [H1 H2]. split; [exact H1|]. split; [exact H2 | exact (H' S)].
Defined.

(** ** Further properties of the builder *)

Section MoreFacts.

Context {env : Env}.

(** X1. [font(family)] writes the font command and sets the width to the width
    given to the constructor if there is one (and it is not 0), else to 42 for
    the family 'A' (in any case) and to 56 for every other family; nothing
    else changes. *)
Theorem font_sets_width (family : jsstring) (p : Printer) :
  font family p
  = Ok {| adapter := adapter p; options := options p;
          buffer := buffer p
                    ++ utf8_encode
                         (ToString (cmd_at ["TEXT_FORMAT"]
                                      (js "TXT_FONT_" ++ toUpperCase family)));
          encoding := encoding p;
          width :=
            (let d := if streq (toUpperCase family) (js "A") then 42 else 56 in
             match options p with
             | Some {| opt_width := Some w |} => if w =? 0 then d else w
             | _ => d
             end);
          _model := _model p |}.
Proof.
  unfold font, write_val, write, write_bytes. cbn [bind].
  unfold options_width_or, num_or, set_width, emit.
  cbn [adapter options buffer encoding width _model].
  destruct (streq (toUpperCase family) (js "A"));
    destruct (options p) as [[e [w|]]|]; cbn [opt_width];
    try destruct (w =? 0); reflexivity.
Qed.

(** X2. [text(s)] followed by [flush] on a builder whose buffer is empty: the
    adapter receives one write, the transcoding of [s + EOL] in the session's
    encoding. *)
Theorem text_then_flush (s : jsstring) (p : Printer) (b : list byte) :
  buffer p = [] ->
  iconv_encode (s ++ EOL) (encoding p) = Some b ->
  exists q,
    text s None p >>= flush = Ok q
    /\ adapter q = adapter p ++ [b]
    /\ buffer q = [].
Proof.
  intros Hp Hb. unfold text, print_encoded. cbn [str_or]. rewrite Hb.
  cbn [print write_bytes bind]. rewrite flush_hands_over. eexists.
  split; [reflexivity|]. cbn. rewrite Hp. auto.
Qed.

(** X3. On a builder that is not a QSPrinter, [qrcode(code)] with no other
    argument writes the QR type and the 2D-code command, version 3, level L,
    size 6, then [code.length] as a little-endian 16-bit number and the code
    itself; it fails with a RangeError, the header already written, when the
    code is longer than 65535 characters. *)
Theorem qrcode_generic_defaults (code : jsstring) (p : Printer) :
  is_qsprinter p = false ->
  let header :=
    utf8_encode (ToString (cmd ["CODE2D_FORMAT"; "TYPE_QR"]))
    ++ utf8_encode (ToString (cmd ["CODE2D_FORMAT"; "CODE2D"]))
    ++ [x03]
    ++ utf8_encode (ToString (cmd_at ["CODE2D_FORMAT"] (js "QR_LEVEL_" ++ toUpperCase (js "L"))))
    ++ [x06] in
  qrcode code undefined undefined undefined p
  = if len code <=? 65535
    then Ok (emit (header
                   ++ [u8 (N.of_nat (length code)); u8 (N.of_nat (length code) / 256)]
                   ++ utf8_encode code) p)
    else Throw out_of_range (emit header p).
Proof.
  intros Hq header. unfold qrcode. rewrite Hq. cbn [negb].
  unfold write_val, write, write_bytes, writeUInt8, writeUInt16LE.
  cbn [bind or_else truthy ToNumber].
  change ((3 <? 0) || (255 <? 3)) with false.
  change ((6 <? 0) || (255 <? 6)) with false.
  cbn [bind]. rewrite !emit_emit.
  assert ((len code <? 0) = false) as -> by (apply Z.ltb_ge; unfold len; lia).
  cbn [orb]. destruct (Z.leb_spec (len code) 65535) as [H | H].
  - destruct (Z.ltb_spec 65535 (len code)); [lia|].
    cbn [bind]. rewrite !emit_emit. unfold len. rewrite <- nat_N_Z, N2Z.id.
    subst header. rewrite <- !app_assoc. reflexivity.
  - destruct (Z.ltb_spec 65535 (len code)); [|lia].
    cbn [bind]. subst header. rewrite <- ?app_assoc. reflexivity.
Qed.

(** X4. The mode names 'dhdw', 'dwh' and 'dhw' of [raster] stand for 'dwdh'. *)
Theorem raster_mode_aliases (image : option Image) (mode : jsstring) (p : Printer) :
  In mode [js "dhdw"; js "dwh"; js "dhw"] ->
  raster image (Some mode) p = raster image (Some (js "dwdh")) p.
Proof.
  intros [<- | [<- | [<- | []]]]; reflexivity.
Qed.

End MoreFacts.

Lemma text_then_flush_witness :
  exists q,
    @text Sample.env (js "A") None Sample.printer >>= flush = Ok q
    /\ adapter q = [[x41; x0a]]
    /\ buffer q = [].
Proof.
  exact (@text_then_flush Sample.env (js "A") Sample.printer [x41; x0a]
           eq_refl eq_refl).
Defined.

Lemma qrcode_generic_defaults_witness :
  @qrcode Sample.env (js "hello") undefined undefined undefined Sample.printer
  = Ok (emit ([x1d; x5a; x02; x1b; x5a; x03; x4c; x06]
              ++ [x05; x00] ++ [x68; x65; x6c; x6c; x6f]) Sample.printer).
Proof.
  rewrite (@qrcode_generic_defaults Sample.env (js "hello") Sample.printer eq_refl).
  reflexivity.
Defined.

Lemma raster_mode_aliases_witness :
  @raster Sample.env (Some ([xff], 8, 1)) (Some (js "dhw")) Sample.printer
  = Ok (emit ([x1d; x76; x30; x03] ++ [x08; x00] ++ [x01; x00] ++ [xff]) Sample.printer).
Proof.
  rewrite (@raster_mode_aliases Sample.env (Some ([xff], 8, 1)) (js "dhw")
             Sample.printer (or_intror (or_intror (or_introl eq_refl)))).
  reflexivity.
Defined.

(** X5. For a code of 16 to 127 characters [codeLength] is the one character
    whose code is the length, and it reaches the buffer as one byte of that
    value. *)
Theorem codeLength_is_length_byte (s : jsstring) :
  (16 <= length s < 128)%nat ->
  codeLength s = [N.of_nat (length s)]
  /\ utf8_encode (codeLength s) = [u8 (N.of_nat (length s))].
Proof. intros H. now apply codeLength_one_byte. Qed.

Lemma codeLength_is_length_byte_witness :
  codeLength (js "1234567890abcdefghij") = [20%N]
  /\ utf8_encode (codeLength (js "1234567890abcdefghij")) = [x14].
Proof.
  apply (codeLength_is_length_byte (js "1234567890abcdefghij")).
  simpl. lia.
Defined.

(** ** The session state *)

Section SessionFacts.

Context {env : Env}.

Lemma steady_Ok (p : Printer) (bytes : list byte) : steady p (Ok (emit bytes p)).
Proof. now exists bytes. Qed.

Lemma steady_here (p : Printer) : steady p (Ok p).
Proof. exists []. simpl. now rewrite emit_nil. Qed.

Lemma steady_Throw (e : exn) (p : Printer) : steady p (Throw e p).
Proof. exists []. simpl. now rewrite emit_nil. Qed.

Lemma steady_bind (p : Printer) (r : result) (f : Printer -> result) :
  steady p r -> (forall q, steady q (f q)) -> steady p (r >>= f).
Proof.
  intros [a Ha] Hf. destruct r as [q | e q]; simpl in *.
  - destruct (Hf q) as [b Hb]. exists (a ++ b). now rewrite Hb, Ha, emit_emit.
  - now exists a.
Qed.

Lemma steady_state (p : Printer) (r : result) :
  steady p (Ok (state_of r)) -> steady p r.
Proof. intros [a Ha]. now exists a. Qed.

Lemma steady_write_bytes b p : steady p (write_bytes b p).
Proof. apply steady_Ok. Qed.

Lemma steady_write s p : steady p (write s p).
Proof. apply steady_Ok. Qed.

Lemma steady_write_val v p : steady p (write_val v p).
Proof. apply steady_Ok. Qed.

Lemma steady_writeUInt8 v p : steady p (writeUInt8 v p).
Proof.
  unfold writeUInt8. destruct (ToNumber v) as [n|]; [|apply steady_Ok].
  destruct ((n <? 0) || (255 <? n)); [apply steady_Throw | apply steady_Ok].
Qed.

Lemma steady_writeUInt16LE v p : steady p (writeUInt16LE v p).
Proof.
  unfold writeUInt16LE. destruct v as [n|]; [|apply steady_Ok].
  destruct ((n <? 0) || (65535 <? n)); [apply steady_Throw | apply steady_Ok].
Qed.

Lemma steady_writeUInt16LE_div a n p : steady p (writeUInt16LE_div a n p).
Proof.
  unfold writeUInt16LE_div.
  destruct (65535 * n <? a); [apply steady_Throw | apply steady_Ok].
Qed.

Create HintDb steady.

#[local] Hint Resolve steady_here steady_Throw steady_write_bytes steady_write
  steady_write_val steady_writeUInt8 steady_writeUInt16LE
  steady_writeUInt16LE_div : steady.

Ltac steady_steps :=
  repeat first
    [ solve [auto with steady]
    | apply steady_bind; [|intro]
    | match goal with
      | |- steady _ (if ?b then _ else _) => destruct b
      | |- steady _ (match ?x with _ => _ end) => destruct x
      | |- steady _ (let (_, _) := ?x in _) => destruct x
      end ].

Lemma steady_print c p : steady p (print c p).
Proof. unfold print. steady_steps. Qed.

Lemma steady_newLine p : steady p (newLine p).
Proof. unfold newLine. steady_steps. Qed.

Lemma steady_print_encoded s e p : steady p (print_encoded s e p).
Proof.
  unfold print_encoded. destruct (iconv_encode _ _);
    [apply steady_print | apply steady_Throw].
Qed.

Lemma steady_text s e p : steady p (text s e p).
Proof. apply steady_print_encoded. Qed.

Lemma steady_feed n p : steady p (feed n p).
Proof. unfold feed. steady_steps. Qed.

Lemma steady_align a p : steady p (align a p).
Proof. unfold align. steady_steps. Qed.

Lemma steady_size w h p : steady p (size w h p).
Proof. unfold size. steady_steps. Qed.

Lemma steady_lineSpace n p : steady p (lineSpace n p).
Proof. unfold lineSpace. steady_steps. Qed.

#[local] Hint Resolve steady_print steady_newLine steady_text steady_feed
  steady_align steady_size steady_lineSpace : steady.

Lemma steady_drawLine p : steady p (drawLine p).
Proof.
  unfold drawLine, for_lt. apply steady_bind; [|auto with steady].
  induction (Z.to_nat (width p)) as [|k IH]; simpl; steady_steps.
Qed.

Lemma steady_style t p : steady p (style t p).
Proof.
  unfold style.
  repeat match goal with
         | |- steady _ (if ?b then _ else _) => destruct b
         end; unfold style3; steady_steps.
Qed.

Lemma steady_barcode c t a2 a3 a4 a5 p : steady p (barcode c t a2 a3 a4 a5 p).
Proof.
  unfold barcode.
  destruct a2 as [[| n | s] | o]; unfold barcode_body;
    (destruct (_ && _); [apply steady_Throw|]);
    (destruct (_ && _); [apply steady_Throw|]);
    unfold barcode_setup, barcode_mode_off; steady_steps.
Qed.

Lemma steady_qrcode c v l s p : steady p (qrcode c v l s p).
Proof. unfold qrcode. steady_steps. Qed.

Lemma steady_raster i m p : steady p (raster i m p).
Proof.
  unfold raster. destruct i as [i|]; [|apply steady_Throw].
  destruct (toRaster i) as [[data w] h]. steady_steps.
Qed.

Lemma steady_image_bands header n (lines : list (list byte)) :
  forall p, steady p (Ok (fold_left (image_band header n) lines p)).
Proof.
  induction lines as [|line lines IH]; intros p; simpl; [apply steady_here|].
  destruct (IH (image_band header n p line)) as [b Hb].
  assert (steady p (write_val header p >>= writeUInt16LE_div (len_bytes line) n
                    >>= write_bytes line >>= write_val (cmd ["EOL"]))) as [a Ha]
    by steady_steps.
  exists (a ++ b). cbn [state_of] in Hb |- *. rewrite Hb. unfold image_band.
  now rewrite Ha, emit_emit.
Qed.

Lemma steady_image i d p : steady p (image i d p).
Proof.
  unfold image. destruct i as [i|]; [|apply steady_Throw].
  apply steady_bind; [apply steady_bind|]; auto with steady.
  intro. apply steady_image_bands.
Qed.

Lemma steady_table fuel d e p r : table fuel d e p = Some r -> steady p r.
Proof.
  unfold table. destruct (table_line _ _ _ _); [|discriminate].
  intros [= <-]. steady_steps.
Qed.

Lemma steady_tableCustom fuel :
  forall d e p r, tableCustom fuel d e p = Some r -> steady p r.
Proof.
  induction fuel as [|fuel IH]; intros d e p r; simpl; [discriminate|].
  destruct (custom_row _ _ _ _) as [row|]; [|discriminate].
  destruct (iconv_encode _ _) as [b|].
  - destruct (secondLineEnabled row).
    + intros H. apply IH in H. destruct H as [a Ha].
      exists (b ++ a). now rewrite Ha, emit_emit.
    + intros [= <-]. apply steady_Ok.
  - intros [= <-]. apply steady_Throw.
Qed.

Lemma steady_fourColumn_rows th1 th2 th3 w (rows : list Tbody) :
  forall p r, steady p r ->
    steady p (fold_left (fourColumn_row th1 th2 th3 w) rows r).
Proof.
  induction rows as [|row rows IH]; intros p r H; simpl; [exact H|].
  apply IH. unfold fourColumn_row. steady_steps.
Qed.

Lemma steady_fourColumnLayout h b w p : steady p (fourColumnLayout h b w p).
Proof.
  unfold fourColumnLayout.
  destruct h as [[|h0 [|h1 [|h2 [|h3 h]]]]|]; auto with steady.
  apply steady_fourColumn_rows, steady_text.
Qed.

Lemma steady_setCharacterCodeTable t p : steady p (setCharacterCodeTable t p).
Proof. unfold setCharacterCodeTable. steady_steps. Qed.

Lemma steady_marginBottom n p : steady p (marginBottom n p).
Proof. unfold marginBottom. steady_steps. Qed.

Lemma steady_marginLeft n p : steady p (marginLeft n p).
Proof. unfold marginLeft. steady_steps. Qed.

Lemma steady_marginRight n p : steady p (marginRight n p).
Proof. unfold marginRight. steady_steps. Qed.

Lemma steady_println s p : steady p (println s p).
Proof. unfold println. steady_steps. Qed.

Lemma steady_pureText s e p : steady p (pureText s e p).
Proof. apply steady_print_encoded. Qed.

Lemma steady_control c p : steady p (control c p).
Proof. unfold control. steady_steps. Qed.

Lemma steady_spacing n p : steady p (spacing n p).
Proof. unfold spacing. steady_steps. Qed.

Lemma steady_hardware h p : steady p (hardware h p).
Proof. unfold hardware. steady_steps. Qed.

Lemma steady_cashdraw n p : steady p (cashdraw n p).
Proof. unfold cashdraw. steady_steps. Qed.

Lemma steady_beep n t p : steady p (beep n t p).
Proof. unfold beep. steady_steps. Qed.

Lemma steady_cut b n p : steady p (cut b n p).
Proof. unfold cut. steady_steps. Qed.

Lemma steady_color c p : steady p (color c p).
Proof. unfold color. steady_steps. Qed.

Lemma steady_setReverseColors b p : steady p (setReverseColors b p).
Proof. unfold setReverseColors. steady_steps. Qed.

Lemma steady_raw d p : steady p (raw d p).
Proof. unfold raw. steady_steps. Qed.

Lemma steady_lineTitle t c p : steady p (lineTitle t c p).
Proof. unfold lineTitle. steady_steps. Qed.

Lemma steady_controlText l r w p : steady p (controlText l r w p).
Proof. unfold controlText. steady_steps. Qed.

Lemma steady_threeColumnLayout t w p : steady p (threeColumnLayout t w p).
Proof. unfold threeColumnLayout. steady_steps. Qed.


End SessionFacts.


(** ** More on utils.js *)

Section MoreUtilsFacts.

Lemma parity_loop_NaN (l : jsstring) :
  forall counter, parity_loop l counter None = None.
Proof.
  induction l as [|c l IH]; intros counter; simpl; [reflexivity|]. apply IH.
Qed.

Lemma parity_loop_not_digit (l : jsstring) :
  forallb is_digit l = false ->
  forall counter parity, parity_loop l counter parity = None.
Proof.
  induction l as [|c l IH]; simpl; [discriminate|]. intros H counter parity.
  destruct (is_digit c) eqn:Hc.
  - apply IH. exact H.
  - unfold parseInt10. unfold is_digit in Hc. rewrite Hc.
    destruct parity; apply parity_loop_NaN.
Qed.

(** X7. When some character of [str] is not a decimal digit, [getParityBit]
    returns the text NaN (three characters), not a digit. *)
Theorem getParityBit_of_non_digits (str : jsstring) :
  forallb is_digit str = false -> getParityBit str = js "NaN".
Proof.
  intros H. unfold getParityBit.
  rewrite parity_loop_not_digit; [reflexivity|]. now rewrite forallb_rev.
Qed.

Lemma sum_widths_bounds (s : jsstring) : len s <= sum_widths s <= 2 * len s.
Proof.
  unfold len. induction s as [|c s IH]; [simpl; lia|].
  cbn [sum_widths fold_right length]. fold (sum_widths s).
  rewrite Nat2Z.inj_succ. unfold char_width. destruct (c <=? 255)%N; lia.
Qed.

Lemma sum_widths_app (a b : jsstring) :
  sum_widths (a ++ b) = sum_widths a + sum_widths b.
Proof.
  induction a as [|c a IH]; [reflexivity|].
  cbn [app sum_widths fold_right]. fold (sum_widths (a ++ b)) (sum_widths a). lia.
Qed.

(** X8. [bytesLength] is additive over concatenation, does not depend on the
    order of the characters, and lies between the length of the string and
    twice that length. *)
Theorem bytesLength_additive_and_bounded (a b : jsstring) :
  bytesLength (a ++ b) = bytesLength a + bytesLength b
  /\ bytesLength (rev a) = bytesLength a
  /\ len a <= bytesLength a <= 2 * len a.
Proof.
  unfold bytesLength. rewrite !bytesLength_from_sum. split; [|split].
  - rewrite sum_widths_app. lia.
  - f_equal. induction a as [|c a IH]; [reflexivity|].
    cbn [rev]. rewrite sum_widths_app, IH. cbn [sum_widths fold_right].
    fold (sum_widths a). lia.
  - pose proof (sum_widths_bounds a). lia.
Qed.

End MoreUtilsFacts.

Lemma getParityBit_of_non_digits_witness :
  getParityBit (js "12345678901X") = js "NaN".
Proof.
  apply (getParityBit_of_non_digits (js "12345678901X")). reflexivity.
Defined.

(** ** More on barcodes *)

Section MoreBarcodeFacts.

Context {env : Env}.

Lemma write_returns (s : jsstring) (p : Printer) :
  exists a, write s p = Ok (emit a p).
Proof. now exists (utf8_encode s). Qed.

Lemma barcode_steps_append t w h pos f frame p :
  exists bytes,
    barcode_setup t w h pos f p >>= write frame >>= barcode_mode_off
    = Ok (emit bytes p).
Proof.
  apply returns_bind; [apply returns_bind|].
  - apply barcode_setup_returns.
  - intro. apply write_returns.
  - intro. apply barcode_mode_off_returns.
Qed.


(** X10. A 12-character EAN13 code with a character that is not a digit is
    accepted, and with the options convention the text NaN is written after
    it in place of a check digit. *)
Theorem barcode_EAN13_of_non_digits (code : jsstring) (a3 : jsval)
    (a4 a5 : option jsstring) (p : Printer) :
  length code = 12%nat ->
  forallb is_digit code = false ->
  barcode code (Some (js "EAN13")) (Value undefined) a3 a4 a5 p
  = barcode_setup (js "EAN13") undefined undefined None None p
    >>= write_bytes (utf8_encode code ++ [x4e; x61; x4e; x00])
    >>= barcode_mode_off.
Proof.
  intros Hn Hd. cbn [barcode]. rewrite barcode_body_EAN13.
  change 12 with (Z.of_nat 12). rewrite len_is, Hn, Nat.eqb_refl.
  replace (getParityBit code) with (js "NaN")
    by (unfold getParityBit; rewrite parity_loop_not_digit;
        [reflexivity | now rewrite forallb_rev]).
  unfold write. rewrite utf8_encode_app by reflexivity. reflexivity.
Qed.

(** X11. For a code of 128 to 255 characters [codeLength] is the character
    U+FFFD, so the CODE128 and CODE93 frames start with the three bytes EF BF
    BD instead of one byte holding the length. *)
Theorem codeLength_of_long_code (code : jsstring) (a : barcode_arg) (a3 : jsval)
    (a4 a5 : option jsstring) (p : Printer) :
  (128 <= length code < 256)%nat ->
  codeLength code = [0xFFFD%N]
  /\ forall type, In type [js "CODE128"; js "CODE93"] ->
       exists w h pos f,
         barcode code (Some type) a a3 a4 a5 p
         = barcode_setup type w h pos f p
           >>= write_bytes ([xef; xbf; xbd] ++ utf8_encode (code ++ [0%N]))
           >>= barcode_mode_off.
Proof.
  intros H.
  assert (codeLength code = [0xFFFD%N]) as E.
  { change (codeLength code) with (codeLength_of (length code)).
    rewrite codeLength_below_256 by lia.
    destruct (Nat.ltb_spec (length code) 16); [lia|].
    destruct (Nat.ltb_spec (length code) 128); [lia | reflexivity]. }
  split; [exact E|]. intros type Ht.
  destruct (barcode_any_convention code (Some type) a a3 a4 a5 p)
    as (w & h & pos & f & b & ->).
  exists w, h, pos, f. unfold barcode_body, barcode_frame. rewrite E.
  destruct Ht as [<- | [<- | []]].
  - change (str_or (Some (js "CODE128")) (js "EAN13")) with (js "CODE128").
    change (streq (js "CODE128") (js "EAN13")) with false.
    change (streq (js "CODE128") (js "EAN8")) with false.
    change (streq (js "CODE128") (js "CODE128")) with true.
    cbn [andb orb]. destruct b; reflexivity.
  - change (str_or (Some (js "CODE93")) (js "EAN13")) with (js "CODE93").
    change (streq (js "CODE93") (js "EAN13")) with false.
    change (streq (js "CODE93") (js "EAN8")) with false.
    change (streq (js "CODE93") (js "CODE128")) with false.
    change (streq (js "CODE93") (js "CODE93")) with true.
    cbn [andb orb]. destruct b; reflexivity.
Qed.

End MoreBarcodeFacts.

Lemma barcode_EAN13_of_non_digits_witness :
  @barcode Sample.env (js "12345678901X") (Some (js "EAN13")) (Value undefined)
    undefined None None Sample.printer
  = Ok (emit ([x1d; x77; x01; x1d; x68; x64; x1d; x66; x00; x1d; x48; x02; x1d; x6b; x02]
              ++ [x31; x32; x33; x34; x35; x36; x37; x38; x39; x30; x31; x58]
              ++ [x4e; x61; x4e; x00]) Sample.printer).
Proof.
  rewrite (@barcode_EAN13_of_non_digits Sample.env (js "12345678901X") undefined
             None None Sample.printer eq_refl eq_refl).
  reflexivity.
Defined.

Lemma codeLength_of_long_code_witness :
  codeLength (repeat 65%N 130) = [0xFFFD%N].
Proof.
  assert (128 <= length (repeat 65%N 130) < 256)%nat as H
    by (rewrite repeat_length; lia).
  exact (proj1 (@codeLength_of_long_code Sample.env (repeat 65%N 130)
                  (Value undefined) undefined None None Sample.printer H)).
Defined.

(** ** Lines and raw bytes *)

Section RawFacts.

Context {env : Env}.

Lemma iter_dashes (k : nat) (p : Printer) :
  Nat.iter k (fun r => r >>= write_bytes (utf8_encode (js "-"))) (Ok p)
  = Ok (emit (repeat x2d k) p).
Proof.
  induction k as [|k IH].
  - cbn. now rewrite emit_nil.
  - rewrite Nat.iter_succ, IH. cbn [bind]. unfold write_bytes. rewrite emit_emit.
    change (utf8_encode (js "-")) with [x2d].
    now rewrite <- repeat_cons.
Qed.

(** X12. [drawLine] appends one '-' for each column of the current width
    (none when the width is not positive) and then the end of line, and
    always returns. *)
Theorem drawLine_draws_width_dashes (p : Printer) :
  drawLine p
  = Ok (emit (repeat x2d (Z.to_nat (width p))
              ++ utf8_encode (ToString (cmd ["EOL"]))) p).
Proof.
  unfold drawLine, for_lt. rewrite iter_dashes. cbn [bind].
  unfold newLine, write_val, write, write_bytes. now rewrite emit_emit.
Qed.

Lemma hex_char_digit (n : N) : (n < 16)%N -> hex_digit (hex_char n) = Some n.
Proof.
  intros H.
  assert (forallb (fun k => match hex_digit (hex_char k) with
                            | Some m => N.eqb m k
                            | None => false
                            end)
            (map N.of_nat (seq 0 16)) = true) as A by reflexivity.
  rewrite forallb_forall in A. specialize (A n).
  assert (In n (map N.of_nat (seq 0 16))) as I.
  { apply in_map_iff. exists (N.to_nat n). split; [lia|]. apply in_seq. lia. }
  specialize (A I). destruct (hex_digit (hex_char n)); [|discriminate].
  apply N.eqb_eq in A. now subst.
Qed.

Lemma hex_char_not_separator (n : N) :
  (n < 16)%N -> is_separator (hex_char n) = false.
Proof.
  intros H.
  assert (forallb (fun k => negb (is_separator (hex_char k)))
            (map N.of_nat (seq 0 16)) = true) as A by reflexivity.
  rewrite forallb_forall in A. specialize (A n).
  assert (In n (map N.of_nat (seq 0 16))) as I.
  { apply in_map_iff. exists (N.to_nat n). split; [lia|]. apply in_seq. lia. }
  specialize (A I). now apply negb_true_iff in A.
Qed.

Lemma byte_nibbles (b : byte) :
  (Byte.to_N b / 16 < 16)%N /\ (Byte.to_N b mod 16 < 16)%N
  /\ u8 (16 * (Byte.to_N b / 16) + Byte.to_N b mod 16) = b.
Proof.
  pose proof (Byte.to_N_bounded b) as Hb.
  split; [|split].
  - apply N.Div0.div_lt_upper_bound. lia.
  - apply N.mod_lt. lia.
  - rewrite <- N.div_mod by lia. unfold u8.
    rewrite N.mod_small by lia. now rewrite Byte.of_to_N.
Qed.

Lemma Buffer_from_hex_hex2 (b : byte) (rest : jsstring) :
  Buffer_from_hex (hex2 b ++ rest) = b :: Buffer_from_hex rest.
Proof.
  destruct (byte_nibbles b) as (H1 & H2 & H3).
  unfold hex2. cbn [app Buffer_from_hex].
  rewrite (hex_char_digit _ H1), (hex_char_digit _ H2), H3. reflexivity.
Qed.

Lemma Buffer_from_hex_no_pair (t : jsstring) :
  no_hex_pair t = true -> Buffer_from_hex t = [].
Proof.
  destruct t as [|a [|b t]]; try reflexivity. simpl.
  destruct (hex_digit a), (hex_digit b); try reflexivity; discriminate.
Qed.

Lemma filter_separators (l : list (byte * jsstring)) (tail : jsstring) :
  Forall (fun bs => forallb is_separator (snd bs) = true) l ->
  filter (fun c => negb (is_separator c)) (hex_text l ++ tail)
  = concat (map (fun bs => hex2 (fst bs)) l)
    ++ filter (fun c => negb (is_separator c)) tail.
Proof.
  induction 1 as [|[b sep] l Hs _ IH]; [reflexivity|].
  change (hex_text ((b, sep) :: l)) with ((hex2 b ++ sep) ++ hex_text l).
  cbn [map concat fst snd] in *.
  rewrite <- !app_assoc.
  rewrite (filter_app _ (hex2 b)), (filter_app _ sep), IH.
  destruct (byte_nibbles b) as (H1 & H2 & _).
  unfold hex2 at 1. cbn [filter].
  rewrite (hex_char_not_separator _ H1), (hex_char_not_separator _ H2).
  cbn [negb app]. unfold hex2 at 1. cbn [app]. f_equal. f_equal.
  assert (filter (fun c => negb (is_separator c)) sep = []) as ->; [|reflexivity].
  clear -Hs. induction sep as [|c sep IH]; [reflexivity|].
  cbn [forallb] in Hs. apply andb_true_iff in Hs as [Hc Hs].
  cbn [filter]. rewrite Hc. cbn [negb]. auto.
Qed.

(** X13. [raw] of a string reads it as hexadecimal bytes, ignoring colons and
    white space between them: when the lower-cased string is the bytes [l] in
    hexadecimal, each followed by any run of separators, then a tail that
    does not go on with two hexadecimal digits once its separators are
    removed, [raw] appends exactly those bytes, as [raw] of the Buffer does.
    The tail (a last single digit, or everything from the first character
    that is no hexadecimal digit) is dropped without an error. *)
Theorem raw_reads_separated_hex
    (s : jsstring) (l : list (byte * jsstring)) (tail : jsstring) (p : Printer) :
  toLowerCase s = hex_text l ++ tail ->
  Forall (fun bs => forallb is_separator (snd bs) = true) l ->
  no_hex_pair (filter (fun c => negb (is_separator c)) tail) = true ->
  raw (Text s) p = Ok (emit (map fst l) p)
  /\ raw (Text s) p = raw (Bytes (map fst l)) p.
Proof.
  intros Hs Hl Ht.
  assert (raw (Text s) p = Ok (emit (map fst l) p)) as E; [|now split].
  unfold raw, write_bytes. cbv zeta. rewrite Hs.
  change (fun c => negb (is_space c || N.eqb c 58))
    with (fun c => negb (is_separator c)).
  rewrite (filter_separators l tail Hl). do 2 f_equal.
  clear Hs. induction Hl as [|[b sep] l Hb Hl IH].
  - cbn [map concat app]. now apply Buffer_from_hex_no_pair.
  - cbn [map concat fst]. rewrite <- app_assoc, Buffer_from_hex_hex2.
    f_equal. exact IH.
Qed.

End RawFacts.

(** The three calls of the documentation of [raw], cut to three bytes, and a
    string with a stray character. *)
Lemma raw_reads_separated_hex_witness :
  @raw Sample.env (Text (js "1d:77:06")) Sample.printer
  = @raw Sample.env (Bytes [x1d; x77; x06]) Sample.printer
  /\ @raw Sample.env (Text (js "1D 77 06")) Sample.printer
     = @raw Sample.env (Bytes [x1d; x77; x06]) Sample.printer
  /\ @raw Sample.env (Text (js "1d77zz06")) Sample.printer
     = @raw Sample.env (Bytes [x1d; x77]) Sample.printer.
Proof.
  split; [|split].
  - apply (@raw_reads_separated_hex Sample.env (js "1d:77:06")
             [(x1d, js ":"); (x77, js ":"); (x06, [])] []).
    + reflexivity.
    + repeat constructor.
    + reflexivity.
  - apply (@raw_reads_separated_hex Sample.env (js "1D 77 06")
             [(x1d, js " "); (x77, js " "); (x06, [])] []).
    + reflexivity.
    + repeat constructor.
    + reflexivity.
  - apply (@raw_reads_separated_hex Sample.env (js "1d77zz06")
             [(x1d, []); (x77, [])] (js "zz06")).
    + reflexivity.
    + repeat constructor.
    + reflexivity.
Defined.

(** ** More on QR codes *)

Section MoreQRFacts.

Context {env : Env}.

Lemma qs_bounded_clamped (v : jsval) (field : string) (lo hi def : Z) :
  qs_bounds field lo hi def -> lo <= hi ->
  qs_bounded v field = JNum (clamped v lo hi def).
Proof.
  intros (Hmin & Hmax & Hdef) Hle. unfold qs_bounded, clamped.
  rewrite Hmin, Hmax, Hdef. destruct v as [| n | s]; try reflexivity.
  destruct (n =? 0); [reflexivity|]. cbn [ToNumber cmp].
  destruct (Z.ltb_spec n lo).
  - f_equal. lia.
  - rewrite Z.gtb_ltb. destruct (Z.ltb_spec hi n); f_equal; lia.
Qed.

Lemma clamped_range (v : jsval) (lo hi def : Z) :
  lo <= hi -> lo <= def <= hi -> lo <= clamped v lo hi def <= hi.
Proof.
  intros H Hd. unfold clamped. destruct v as [| n | s]; try lia.
  destruct (n =? 0); lia.
Qed.

Lemma writeUInt8_byte (n : Z) (p : Printer) :
  0 <= n <= 255 -> writeUInt8 (JNum n) p = Ok (emit [u8 (Z.to_N n)] p).
Proof.
  intros H. unfold writeUInt8. cbn [ToNumber].
  destruct (Z.ltb_spec n 0); [lia|]. destruct (Z.ltb_spec 255 n); [lia|].
  reflexivity.
Qed.

Lemma writeUInt16LE_word (n : Z) (p : Printer) :
  0 <= n <= 65535 -> writeUInt16LE (Some n) p = Ok (emit (le16 n) p).
Proof.
  intros H. unfold writeUInt16LE.
  destruct (Z.ltb_spec n 0); [lia|]. destruct (Z.ltb_spec 65535 n); [lia|].
  reflexivity.
Qed.

Lemma writeUInt16LE_over (n : Z) (p : Printer) :
  65535 < n -> writeUInt16LE (Some n) p = Throw out_of_range p.
Proof.
  intros H. unfold writeUInt16LE.
  destruct (Z.ltb_spec 65535 n); [|lia]. now rewrite orb_true_r.
Qed.

(** X14. The QSPrinter branch of [qrcode], for a command table that holds
    numbers between 0 and 255 for the bounds and defaults of the pixel size
    and of the version, a string for the default level and a number for the
    length offset.  The size and the version are never refused: each is
    replaced by its default unless it is a number other than 0, and brought
    into its bounds otherwise.  The call appends the three configuration
    commands, then the store command with the length of the transcoded code
    plus the offset (16 bits, low byte first) and the code, then the print
    command with the same length.  When that length exceeds 65535 the call
    throws a RangeError with the configuration and the head of the store
    command already in the buffer. *)
Theorem qrcode_qsprinter_bytes
    (code : jsstring) (version level size : jsval) (p : Printer)
    (dataRaw : list byte) (smin smax sdef vmin vmax vdef k : Z) (lvl : jsstring) :
  is_qsprinter p = true ->
  iconv_encode code (js "utf8") = Some dataRaw ->
  qs_bounds "PIXEL_SIZE" smin smax sdef -> 0 <= smin <= smax ->
  smin <= sdef <= smax -> smax <= 255 ->
  qs_bounds "VERSION" vmin vmax vdef -> 0 <= vmin <= vmax ->
  vmin <= vdef <= vmax -> vmax <= 255 ->
  cmd ["CODE2D_FORMAT"; "QR_LEVEL_L"] = JStr lvl ->
  cmd ["MODEL"; "QSPRINTER"; "CODE2D_FORMAT"; "LEN_OFFSET"] = JNum k -> 0 <= k ->
  let q (path : list string) :=
    utf8_encode (ToString (cmd (["MODEL"; "QSPRINTER"; "CODE2D_FORMAT"] ++ path))) in
  let configuration :=
    q ["PIXEL_SIZE"; "CMD"] ++ [u8 (Z.to_N (clamped size smin smax sdef))]
    ++ q ["VERSION"; "CMD"] ++ [u8 (Z.to_N (clamped version vmin vmax vdef))]
    ++ q ["LEVEL"; "CMD"]
    ++ utf8_encode
         (ToString
            (cmd_at ["MODEL"; "QSPRINTER"; "CODE2D_FORMAT"; "LEVEL"; "OPTIONS"]
               (toUpperCase match level with JStr (c :: s) => c :: s | _ => lvl end))) in
  let declared := len_bytes dataRaw + k in
  qrcode code version level size p
  = if declared <=? 65535
    then Ok (emit (configuration
                   ++ q ["SAVEBUF"; "CMD_P1"] ++ le16 declared
                   ++ q ["SAVEBUF"; "CMD_P2"] ++ dataRaw
                   ++ q ["PRINTBUF"; "CMD_P1"] ++ le16 declared
                   ++ q ["PRINTBUF"; "CMD_P2"]) p)
    else Throw out_of_range (emit (configuration ++ q ["SAVEBUF"; "CMD_P1"]) p).
Proof.
  intros Hq Hd Hs Hs1 Hs2 Hs3 Hv Hv1 Hv2 Hv3 Hl Hk Hk0 q configuration declared.
  rewrite (qrcode_qsprinter_steps code version level size p dataRaw Hq Hd).
  cbv zeta.
  rewrite (qs_bounded_clamped size "PIXEL_SIZE" smin smax sdef Hs) by lia.
  rewrite (qs_bounded_clamped version "VERSION" vmin vmax vdef Hv) by lia.
  pose proof (clamped_range size smin smax sdef ltac:(lia) Hs2) as Rs.
  pose proof (clamped_range version vmin vmax vdef ltac:(lia) Hv2) as Rv.
  unfold plus_len_offset. rewrite Hk. cbn [ToNumber].
  fold declared.
  assert (0 <= declared) as Hpos by (unfold declared, len_bytes; lia).
  set (lv := match level with JStr (c :: s) => JStr (c :: s)
                           | _ => cmd ["CODE2D_FORMAT"; "QR_LEVEL_L"] end).
  assert (lv = JStr match level with JStr (c :: s) => c :: s | _ => lvl end) as Hlv.
  { unfold lv. destruct level as [| n | [|c s]]; try exact Hl. reflexivity. }
  rewrite Hlv.
  unfold write_val at 1, write, write_bytes. cbn [bind].
  rewrite writeUInt8_byte by lia. cbn [bind].
  unfold write_val at 1, write, write_bytes. cbn [bind].
  rewrite writeUInt8_byte by lia. cbn [bind].
  unfold write_val, write, write_bytes. cbn [bind].
  rewrite !emit_emit.
  destruct (Z.leb_spec declared 65535) as [H | H].
  - rewrite writeUInt16LE_word by lia. cbn [bind].
    rewrite writeUInt16LE_word by lia. cbn [bind].
    rewrite !emit_emit. unfold configuration, q.
    repeat (rewrite <- app_assoc || rewrite <- app_comm_cons).
    cbn [app]. reflexivity.
  - rewrite writeUInt16LE_over by lia. cbn [bind].
    unfold configuration, q.
    repeat (rewrite <- app_assoc || rewrite <- app_comm_cons).
    cbn [app]. reflexivity.
Qed.

End MoreQRFacts.

(** A size above the bound, a version that is no number, the level M. *)
Lemma qrcode_qsprinter_bytes_witness :
  @qrcode Sample.env (js "hi") (JStr (js "x")) (JStr (js "m")) (JNum 100)
    Sample.qsprinter
  = Ok (emit ([x1b; x23; x23; x51; x50; x49; x58] ++ [x18]
              ++ [x1d; x28; x6b; x03; x00; x31; x43] ++ [x03]
              ++ [x1d; x28; x6b; x03; x00; x31; x45] ++ [x31]
              ++ [x1d; x28; x6b] ++ [x05; x00] ++ [x31; x50; x30] ++ [x68; x69]
              ++ [x1d; x28; x6b] ++ [x05; x00] ++ [x31; x51; x30]) Sample.qsprinter).
Proof.
  rewrite (@qrcode_qsprinter_bytes Sample.env (js "hi") (JStr (js "x"))
             (JStr (js "m")) (JNum 100) Sample.qsprinter [x68; x69]
             1 24 12 1 16 3 3 (js "L")); try reflexivity; try lia;
    repeat split; reflexivity.
Defined.

(** ** Layouts *)

Section LayoutFacts.

Context {env : Env}.

Lemma bytesLength_le_twice (s : jsstring) :
  len s <= bytesLength s <= 2 * len s.
Proof.
  unfold bytesLength. rewrite bytesLength_from_sum. apply sum_widths_bounds.
Qed.

Lemma substring_head (s : jsstring) (k : nat) : substring s 0 k = firstn k s.
Proof.
  unfold substring. rewrite Nat.max_0_l, Nat.min_0_l, Nat.sub_0_r. reflexivity.
Qed.

Lemma substring_tail (s : jsstring) (k : nat) :
  (k <= length s)%nat -> substring s k (length s) = skipn k s.
Proof.
  intros H. unfold substring.
  rewrite (Nat.max_r _ _ H), (Nat.min_l _ _ H).
  apply firstn_all2. rewrite length_skipn. lia.
Qed.

Lemma half_index_le (wrapByte : Z) (n : nat) : (half_index wrapByte n <= n)%nat.
Proof. unfold half_index. lia. Qed.

Lemma bytesLength_head (wrapByte : Z) (s : jsstring) :
  bytesLength (firstn (half_index wrapByte (length s)) s) <= Z.max 0 wrapByte.
Proof.
  pose proof (bytesLength_le_twice (firstn (half_index wrapByte (length s)) s)) as H.
  unfold len in H. rewrite length_firstn in H.
  assert (Z.of_nat (half_index wrapByte (length s)) <= Z.max 0 (Z.quot wrapByte 2)) as Hk.
  { unfold half_index. lia. }
  assert (2 * Z.max 0 (Z.quot wrapByte 2) <= Z.max 0 wrapByte) as Hq.
  { destruct (Z.le_gt_cases 0 wrapByte) as [Hw | Hw].
    - pose proof (Z.quot_rem' wrapByte 2) as E.
      pose proof (Z.rem_nonneg wrapByte 2 ltac:(lia) Hw) as R.
      pose proof (Z.quot_pos wrapByte 2 Hw ltac:(lia)). lia.
    - pose proof (Z.quot_le_upper_bound wrapByte 2 0 ltac:(lia) ltac:(lia)). lia. }
  lia.
Qed.

(** X15. [controlText] prints the left text, a run of spaces and the right
    text as one line whose byte width is the builder's width, or the two
    texts with nothing between them when they are wider than that.  A left
    text of more than [wrapByte] bytes (32 by default) is cut after
    [wrapByte / 2] characters, whatever their byte widths: the head goes on
    that line and the rest on a line of its own, so that no character is
    lost.  The left part of the first line is never wider than [wrapByte]
    bytes. *)
Theorem controlText_lines (leftStr rightStr : jsstring) (wrapByte : option Z)
    (p : Printer) :
  let wrap := match wrapByte with Some w => w | None => 32 end in
  let wraps := bytesLength leftStr >? wrap in
  let k := if wraps then half_index wrap (length leftStr) else length leftStr in
  let head := firstn k leftStr in
  let line :=
    head
    ++ repeat 32%N (Z.to_nat (width p - bytesLength head - bytesLength rightStr))
    ++ rightStr in
  controlText leftStr rightStr wrapByte p
  = (if wraps then text line None p >>= text (skipn k leftStr) None
     else text line None p)
  /\ head ++ skipn k leftStr = leftStr
  /\ bytesLength line = Z.max (width p) (bytesLength head + bytesLength rightStr)
  /\ bytesLength head <= Z.max 0 wrap.
Proof.
  intros wrap wraps k head line. repeat split.
  - unfold controlText. fold wrap. fold wraps. unfold line, head, k.
    destruct wraps.
    + rewrite substring_head, substring_tail by apply half_index_le.
      unfold spaces. rewrite for_lt_spaces, <- app_assoc. reflexivity.
    + rewrite firstn_all. unfold spaces.
      rewrite for_lt_spaces, <- app_assoc. reflexivity.
  - apply firstn_skipn.
  - unfold line. rewrite !bytesLength_app, bytesLength_spaces. lia.
  - unfold head, k, wraps. destruct (Z.gtb_spec (bytesLength leftStr) wrap).
    + apply bytesLength_head.
    + rewrite firstn_all. lia.
Qed.

(** X16. [threeColumnLayout] for a left text of at most [wrapByte] bytes
    prints one line.  Without [leftSpace] (or with 0) the three texts are
    separated by two equal runs of spaces, and a line that fits is as wide as
    the builder's width or one byte narrower.  With [leftSpace] the centre
    text ends at byte [leftSpace] and the right text at the builder's width,
    when the texts fit. *)
Theorem threeColumnLayout_one_line (t : Columns) (wrapByte : option Z) (p : Printer) :
  let wrap := match wrapByte with Some w => w | None => 32 end in
  let l := bytesLength (leftTxt t) in
  let c := bytesLength (centerTxt t) in
  let r := bytesLength (rightTxt t) in
  let w := width p in
  let ls := num_or (leftSpace t) 0 in
  l <= wrap ->
  (ls = 0 ->
   let gap := repeat 32%N (Z.to_nat ((w - l - c - r) / 2)) in
   let line := leftTxt t ++ gap ++ centerTxt t ++ gap ++ rightTxt t in
   threeColumnLayout t wrapByte p = text line None p
   /\ (l + c + r <= w -> w - 1 <= bytesLength line <= w))
  /\ (ls <> 0 ->
      threeColumnLayout t wrapByte p
      = text (spaceText (spaceText (leftTxt t) (centerTxt t) ls) (rightTxt t) w)
          None p
      /\ (l + c <= ls -> ls + r <= w ->
          let block :=
            leftTxt t ++ repeat 32%N (Z.to_nat (ls - l - c)) ++ centerTxt t in
          spaceText (spaceText (leftTxt t) (centerTxt t) ls) (rightTxt t) w
          = block ++ repeat 32%N (Z.to_nat (w - ls - r)) ++ rightTxt t
          /\ bytesLength block = ls)).
Proof.
  intros wrap l c r w ls Hl.
  assert ((l >? wrap) = false) as Hw by (rewrite Z.gtb_ltb; apply Z.ltb_ge; exact Hl).
  split; intros Hs.
  - intros gap line. split.
    + unfold threeColumnLayout. fold wrap l c r w ls. rewrite Hw, Hs.
      cbn [Z.eqb negb]. unfold spaces. rewrite !for_lt_spaces.
      unfold line, gap. rewrite <- !app_assoc. reflexivity.
    + intros Hfit. unfold line, gap.
      rewrite !bytesLength_app, !bytesLength_spaces. fold l c r.
      pose proof (Z.div_mod (w - l - c - r) 2 ltac:(lia)) as E.
      pose proof (Z.mod_pos_bound (w - l - c - r) 2 ltac:(lia)) as B.
      assert (0 <= (w - l - c - r) / 2) by (apply Z.div_pos; lia).
      lia.
  - split.
    + unfold threeColumnLayout. fold wrap l c r w ls. rewrite Hw.
      destruct (Z.eqb_spec ls 0); [contradiction|]. reflexivity.
    + intros H1 H2 block.
      assert (spaceText (leftTxt t) (centerTxt t) ls = block) as Hb.
      { unfold spaceText. fold l c. rewrite for_lt_spaces, <- app_assoc.
        reflexivity. }
      assert (bytesLength block = ls) as Hbl.
      { unfold block. rewrite !bytesLength_app, bytesLength_spaces.
        fold l c. lia. }
      split; [|exact Hbl].
      rewrite Hb. unfold spaceText. rewrite Hbl. fold r.
      rewrite for_lt_spaces, <- app_assoc. reflexivity.
Qed.

Lemma lineTitle_loop_rule (otherWidth strWidth : Z) (title : jsstring) :
  strWidth <= 0 ->
  forall (n : nat) (i : Z) (str : jsstring),
    lineTitle_loop n i otherWidth strWidth title str = str ++ repeat 45%N n.
Proof.
  intros Hs. induction n as [|n IH]; intros i str.
  - cbn [lineTitle_loop repeat]. now rewrite app_nil_r.
  - cbn [lineTitle_loop].
    replace ((otherWidth <=? 2 * i) && (2 * i <? otherWidth + 2 * strWidth))
      with false.
    + rewrite IH, <- app_assoc. reflexivity.
    + symmetry. destruct (Z.leb_spec otherWidth (2 * i)); [|reflexivity].
      cbn [andb]. apply Z.ltb_ge. lia.
Qed.

Lemma lineTitle_loop_title (otherWidth strWidth : Z) (title : jsstring) :
  0 < strWidth -> 0 < otherWidth + 2 * strWidth ->
  forall (m n : nat) (i : Z) (str : jsstring),
    0 <= i ->
    i + Z.of_nat m = Z.max 0 ((otherWidth + 1) / 2) ->
    (m < n)%nat ->
    lineTitle_loop n i otherWidth strWidth title str
    = (str ++ repeat 45%N m) ++ title ++ (str ++ repeat 45%N m).
Proof.
  intros Hs Hw.
  pose proof (Z.div_mod (otherWidth + 1) 2 ltac:(lia)) as E.
  pose proof (Z.mod_pos_bound (otherWidth + 1) 2 ltac:(lia)) as B.
  induction m as [|m IH]; intros n i str Hi Hk Hn.
  - destruct n as [|n]; [lia|]. cbn [lineTitle_loop repeat].
    rewrite !app_nil_r.
    destruct (Z.leb_spec otherWidth (2 * i)); [|lia].
    destruct (Z.ltb_spec (2 * i) (otherWidth + 2 * strWidth)); [|lia].
    reflexivity.
  - destruct n as [|n]; [lia|]. cbn [lineTitle_loop].
    destruct (Z.leb_spec otherWidth (2 * i)); [lia|]. cbn [andb].
    rewrite (IH n (i + 1) (str ++ js "-")) by lia.
    cbn [repeat]. rewrite <- !app_assoc. reflexivity.
Qed.

(** X17. [lineTitle] prints, centred and in normal size, the title between
    two equal runs of dashes: as many as half of what the builder's width
    leaves beside [title.length * charLength] columns (2 columns a character
    by default), rounded up.  A title wider than the builder's width is
    printed with no dash; an empty title, or a [charLength] of 0 or less,
    gives a rule of dashes over the whole width with no title; a builder of
    width 0 gives an empty line. *)
Theorem lineTitle_centres_title (title : jsstring) (charLength : option Z)
    (p : Printer) :
  let strWidth := len title * match charLength with Some c => c | None => 2 end in
  let dashes := repeat 45%N (Z.to_nat (Z.max 0 ((width p - strWidth + 1) / 2))) in
  lineTitle title charLength p
  = align (js "CT") p >>= size 1 1
    >>= text (if width p <=? 0 then []
              else if 0 <? strWidth then dashes ++ title ++ dashes
              else repeat 45%N (Z.to_nat (width p))) None.
Proof.
  intros strWidth dashes. unfold lineTitle. fold strWidth. cbv zeta.
  do 2 f_equal.
  destruct (Z.leb_spec (width p) 0) as [H0 | H0].
  - replace (Z.to_nat (width p)) with 0%nat by lia. reflexivity.
  - destruct (Z.ltb_spec 0 strWidth) as [Hs | Hs].
    + set (k := Z.max 0 ((width p - strWidth + 1) / 2)).
      pose proof (Z.div_mod (width p - strWidth + 1) 2 ltac:(lia)) as E.
      pose proof (Z.mod_pos_bound (width p - strWidth + 1) 2 ltac:(lia)) as B.
      rewrite (lineTitle_loop_title (width p - strWidth) strWidth title Hs
                 ltac:(lia) (Z.to_nat k) (Z.to_nat (width p)) 0 [])
        by (unfold k; lia).
      reflexivity.
    + now rewrite lineTitle_loop_rule.
Qed.

End LayoutFacts.

Lemma threeColumnLayout_one_line_witness :
  @threeColumnLayout Sample.env
    {| leftTxt := js "ab"; centerTxt := js "c"; rightTxt := js "de";
       leftSpace := None |} (Some 4) (set_width 10 Sample.printer)
  = @text Sample.env (js "ab  c  de") None (set_width 10 Sample.printer).
Proof.
  exact (proj1 (proj1 (@threeColumnLayout_one_line Sample.env
          {| leftTxt := js "ab"; centerTxt := js "c"; rightTxt := js "de";
             leftSpace := None |} (Some 4) (set_width 10 Sample.printer)
          ltac:(vm_compute; discriminate)) eq_refl)).
Defined.

(** ** Images *)

Section ImageFacts.

Context {env : Env}.

Lemma writeUInt16LE_div_word (a n : Z) (p : Printer) :
  a <= 65535 * n ->
  writeUInt16LE_div a n p = Ok (emit (le16 (a / n)) p).
Proof.
  intros H. unfold writeUInt16LE_div.
  destruct (Z.ltb_spec (65535 * n) a); [lia|]. reflexivity.
Qed.

Lemma writeUInt16LE_div_over (a n : Z) (p : Printer) :
  65535 * n < a -> writeUInt16LE_div a n p = Throw out_of_range p.
Proof.
  intros H. unfold writeUInt16LE_div.
  destruct (Z.ltb_spec (65535 * n) a); [|lia]. reflexivity.
Qed.

Lemma image_band_appends (header : jsval) (n : Z) (p : Printer) (line : list byte) :
  image_band header n p line = emit (band header n line) p.
Proof.
  unfold image_band, band, write_val, write, write_bytes. cbn [bind].
  destruct (Z.ltb_spec (65535 * n) (len_bytes line)) as [H | H].
  - rewrite writeUInt16LE_div_over by lia. cbn [bind state_of].
    now rewrite app_nil_r.
  - rewrite writeUInt16LE_div_word by lia. cbn [bind state_of].
    rewrite ?emit_emit, <- ?app_assoc. reflexivity.
Qed.

Lemma image_bands_append (header : jsval) (n : Z) (bitmap : list (list byte)) :
  forall p : Printer,
    fold_left (image_band header n) bitmap p
    = emit (concat (map (band header n) bitmap)) p.
Proof.
  induction bitmap as [|line bitmap IH]; intros p; cbn [fold_left map concat].
  - now rewrite emit_nil.
  - rewrite IH, image_band_appends, emit_emit. reflexivity.
Qed.

(** X18. [image] on an [Image] settles without an error whatever the bitmap
    holds.  It appends the command that sets the line spacing to 0, then one
    band for each line of the bitmap in order, then the command that restores
    the default line spacing.  A band is the bitmap header of the density
    ('d24' by default), the column count of the line on 16 bits, low byte
    first (its length divided by 3, or by 1 for the densities 'd8' and 's8'),
    the line and the end of line.  For a line whose column count exceeds
    65535 the band stops after the header: the error raised there does not
    reach the caller, and the bands that follow are still written. *)
Theorem image_writes_bands_in_order (i : Image) (density : option jsstring)
    (p : Printer) :
  let d := str_or density (js "d24") in
  let n := if streq d (js "d8") || streq d (js "s8") then 1 else 3 in
  let header := cmd_at ["BITMAP_FORMAT"] (js "BITMAP_" ++ toUpperCase d) in
  image (Some i) density p
  = Ok (emit (utf8_encode (ToString (cmd ["LINE_SPACING"; "LS_SET"])) ++ [x00]
              ++ concat (map (band header n) (toBitmap i (n * 8)))
              ++ utf8_encode (ToString (cmd ["LINE_SPACING"; "LS_DEFAULT"]))) p).
Proof.
  intros d n header. unfold image. fold d. fold n. fold header. cbv zeta.
  unfold lineSpace, write_val, write, write_bytes. cbn [bind].
  rewrite writeUInt8_byte by lia. cbn [bind].
  rewrite image_bands_append, !emit_emit.
  repeat (rewrite <- app_assoc || rewrite <- app_comm_cons).
  cbn [app]. reflexivity.
Qed.

End ImageFacts.

(** ** The table of four columns *)

Section FourColumnFacts.

Context {env : Env}.

Lemma spaceText_fit (a b : jsstring) (w : Z) :
  bytesLength a + bytesLength b <= w ->
  spaceText a b w
  = a ++ repeat 32%N (Z.to_nat (w - bytesLength a - bytesLength b)) ++ b
  /\ bytesLength (spaceText a b w) = w.
Proof.
  intros H. unfold spaceText. rewrite for_lt_spaces, <- app_assoc.
  split; [reflexivity|]. rewrite !bytesLength_app, bytesLength_spaces. lia.
Qed.

Lemma bind_Ok (r : result) : r >>= (fun p => Ok p) = r.
Proof. now destruct r. Qed.


End FourColumnFacts.


(** ** Line feeds *)

Section FeedFacts.

Context {env : Env}.

Lemma hd_concat_repeat (e : jsstring) (n : nat) :
  is_low_surrogate (hd 0%N e) = false ->
  is_low_surrogate (hd 0%N (concat (repeat e n))) = false.
Proof.
  intros H. destruct n as [|n]; [reflexivity|]. cbn [repeat concat].
  destruct e as [|c e]; [|exact H]. cbn [app].
  induction n as [|n IH]; [reflexivity|exact IH].
Qed.

Lemma feed_writes (n : Z) (p : Printer) :
  1 <= n <= 4294967295 ->
  feed (Some n) p
  = Ok (emit (utf8_encode (fill_join (Z.to_nat n) (cmd ["EOL"]))) p).
Proof.
  intros H. unfold feed, num_or.
  destruct (Z.eqb_spec n 0); [lia|].
  destruct (Z.ltb_spec n 0); [lia|].
  destruct (Z.ltb_spec 4294967295 n); [lia|]. reflexivity.
Qed.

(** X20. Feeding [a] lines and then [b] lines writes what feeding [a + b]
    lines at once writes, for counts from 1 on and a sum below 2^32, when the
    end of line of the command table does not begin with a lone low
    surrogate.  A count of 0, like none, feeds one line. *)
Theorem feed_adds_up (a b : Z) (p : Printer) :
  1 <= a -> 1 <= b -> a + b <= 4294967295 ->
  is_low_surrogate (hd 0%N EOL) = false ->
  feed (Some a) p >>= feed (Some b) = feed (Some (a + b)) p
  /\ feed (Some 0) p = feed (Some 1) p
  /\ feed None p = feed (Some 1) p.
Proof.
  intros Ha Hb Hab He. split; [|split; reflexivity].
  rewrite !feed_writes by lia. cbn [bind].
  rewrite feed_writes by lia. rewrite emit_emit. do 2 f_equal.
  unfold fill_join. rewrite Z2Nat.inj_add, repeat_app, concat_app by lia.
  symmetry. apply utf8_encode_app. apply hd_concat_repeat.
  unfold EOL in He. destruct (cmd ["EOL"]); [reflexivity | exact He | exact He].
Qed.

End FeedFacts.

Lemma feed_adds_up_witness :
  @feed Sample.env (Some 2) Sample.printer >>= @feed Sample.env (Some 3)
  = @feed Sample.env (Some 5) Sample.printer.
Proof.
  exact (proj1 (@feed_adds_up Sample.env 2 3 Sample.printer
                  ltac:(lia) ltac:(lia) ltac:(lia) eq_refl)).
Defined.
